(** * PDF acroform pipeline: field merging and schema assembly

    A shallow embedding of [field_processor.py], [pdf_acroform_extractor.py]
    and [main.py].

    - Python values that the code handles dynamically (field records, decoded
      replies of the language model, output entries) are values of one type
      [value]; subscripts, iteration, truth tests and method calls on them
      follow Python, exceptions included.  JSON numbers are integers and
      strings are ASCII text.
    - Exceptions are explicit: a computation returns [Ok] or [Raise].
    - The language model is a sequence of replies, [llm k] for request number
      [k] of the run; the number of requests made is threaded through the
      stages.  [json.loads], the iteration order of a set, [str], [int] and
      the file system are parameters.
    - Printing is left out. *)

From Stdlib Require Import List String Ascii ZArith Bool Lia Arith Permutation.
From Stdlib Require Import DecimalString Sorted.
Import ListNotations.
Local Open Scope string_scope.
Local Open Scope Z_scope.
Local Open Scope list_scope.

Set Implicit Arguments.
Set Warnings "-register-all".

(** ** Python values and exceptions *)

Module Py.

(** What [json.loads] can return and what field records hold.  JSON numbers
    are integers here; object keys are strings, in insertion order. *)
Inductive value : Type :=
| VNone
| VBool (b : bool)
| VInt (z : Z)
| VStr (s : string)
| VList (l : list value)
| VDict (d : list (string * value)).

(** A [dict] with string keys, as an insertion-ordered association list. *)
Definition dict : Type := list (string * value).

Inductive exn : Type :=
| KeyError
| IndexError
| TypeError
| AttributeError
| ValueError
| FileNotFoundError
| RequestError (msg : string).

Inductive result (A : Type) : Type :=
| Ok (a : A)
| Raise (e : exn).
Arguments Ok {A} a.
Arguments Raise {A} e.

Definition rbind {A B} (r : result A) (k : A -> result B) : result B :=
  match r with
  | Ok a => k a
  | Raise e => Raise e
  end.

Fixpoint rmap {A B} (f : A -> result B) (l : list A) : result (list B) :=
  match l with
  | [] => Ok []
  | x :: xs => rbind (f x) (fun y => rbind (rmap f xs) (fun ys => Ok (y :: ys)))
  end.

(** Left-to-right loop over [l] threading an accumulator, stopping at the
    first exception. *)
Fixpoint rfold {A S} (f : S -> A -> result S) (l : list A) (s : S) : result S :=
  match l with
  | [] => Ok s
  | x :: xs => rbind (f s x) (rfold f xs)
  end.

(** *** Dictionaries *)

Section AssocList.
Context {K V : Type} (eqb : K -> K -> bool).

(** [d.get(k)] *)
Fixpoint assoc_get (k : K) (d : list (K * V)) : option V :=
  match d with
  | [] => None
  | (k', v) :: d' => if eqb k' k then Some v else assoc_get k d'
  end.

(** [d[k] = v]: an existing key keeps its place (and its key object), a new
    key goes last. *)
Fixpoint assoc_set (k : K) (v : V) (d : list (K * V)) : list (K * V) :=
  match d with
  | [] => [(k, v)]
  | (k', v') :: d' =>
      if eqb k' k then (k', v) :: d' else (k', v') :: assoc_set k v d'
  end.

Definition keys (d : list (K * V)) : list K := map fst d.

End AssocList.

Definition dict_get (k : string) (d : dict) : option value :=
  assoc_get String.eqb k d.

Definition dict_set (k : string) (v : value) (d : dict) : dict :=
  assoc_set String.eqb k v d.

(** [d.get(k, default)] *)
Definition dict_get_default (k : string) (default : value) (d : dict) : value :=
  match dict_get k d with
  | Some v => v
  | None => default
  end.

(** [d[k]] on a dict with string keys *)
Definition dict_getitem (k : string) (d : dict) : result value :=
  match dict_get k d with
  | Some v => Ok v
  | None => Raise KeyError
  end.

(** *** Truth, hashing, equality of keys *)

(** [bool(v)] *)
Definition truthy (v : value) : bool :=
  match v with
  | VNone => false
  | VBool b => b
  | VInt z => negb (z =? 0)
  | VStr s => negb (String.eqb s "")
  | VList l => match l with [] => false | _ => true end
  | VDict d => match d with [] => false | _ => true end
  end.

Definition hashable (v : value) : bool :=
  match v with
  | VList _ | VDict _ => false
  | _ => true
  end.

(** [bool] is a subclass of [int]: [True == 1] and both index a list. *)
Definition as_int (v : value) : option Z :=
  match v with
  | VInt z => Some z
  | VBool b => Some (Z.b2z b)
  | _ => None
  end.

(** [a == b] on hashable values (dictionary keys, set elements). *)
Definition key_eqb (a b : value) : bool :=
  match a, b with
  | VNone, VNone => true
  | VStr s, VStr t => String.eqb s t
  | (VInt _ | VBool _), (VInt _ | VBool _) =>
      match as_int a, as_int b with
      | Some x, Some y => x =? y
      | _, _ => false
      end
  | _, _ => false
  end.

(** *** Sequences *)

(** [l[i]] for a Python list and an integer [i]: a negative [i] counts from
    the end, anything outside [-len, len) raises [IndexError]. *)
Definition list_index {A} (l : list A) (i : Z) : result A :=
  let n := Z.of_nat (List.length l) in
  let j := if i <? 0 then i + n else i in
  if (j <? 0) || (n <=? j) then Raise IndexError
  else match nth_error l (Z.to_nat j) with
       | Some x => Ok x
       | None => Raise IndexError
       end.

(** [l[v]] for a Python list and an arbitrary value as index. *)
Definition list_getitem {A} (l : list A) (v : value) : result A :=
  match as_int v with
  | Some i => list_index l i
  | None => Raise TypeError
  end.

Definition chars (s : string) : list value :=
  map (fun c => VStr (String c EmptyString)) (list_ascii_of_string s).

(** [v[k]] *)
Definition getitem (v k : value) : result value :=
  match v with
  | VDict d =>
      match k with
      | VStr s => dict_getitem s d
      | VList _ | VDict _ => Raise TypeError
      | _ => Raise KeyError
      end
  | VList l => list_getitem l k
  | VStr s => list_getitem (chars s) k
  | _ => Raise TypeError
  end.

(** [for x in v]: the items visited. *)
Definition iter (v : value) : result (list value) :=
  match v with
  | VList l => Ok l
  | VDict d => Ok (map (fun kv => VStr (fst kv)) d)
  | VStr s => Ok (chars s)
  | _ => Raise TypeError
  end.

(** [v.get(k)] and [v.get(k, default)]: only a dict has the method. *)
Definition get_method (k : string) (default : value) (v : value) : result value :=
  match v with
  | VDict d => Ok (dict_get_default k default d)
  | _ => Raise AttributeError
  end.

(** [set(xs)]: the elements kept, the first of each class of equal ones, in
    the order of first occurrence; an unhashable element raises. *)
Fixpoint dedup (seen xs : list value) : list value :=
  match xs with
  | [] => []
  | x :: xs' =>
      if existsb (key_eqb x) seen then dedup seen xs'
      else x :: dedup (x :: seen) xs'
  end.

Definition set_of (xs : list value) : result (list value) :=
  if forallb hashable xs then Ok (dedup [] xs) else Raise TypeError.

(** *** Strings *)

(** [str(n)] for a natural number *)
Definition str_of_nat (n : nat) : string :=
  NilZero.string_of_uint (Nat.to_uint n).

Definition is_space (c : ascii) : bool :=
  let n := nat_of_ascii c in
  ((9 <=? n) && (n <=? 13) || (28 <=? n) && (n <=? 32))%nat.

Fixpoint lstrip (l : list ascii) : list ascii :=
  match l with
  | c :: l' => if is_space c then lstrip l' else l
  | [] => []
  end.

(** [s.strip()], over the ASCII white space *)
Definition strip (s : string) : string :=
  string_of_list_ascii
    (rev (lstrip (rev (lstrip (list_ascii_of_string s))))).

Definition newline : ascii := ascii_of_nat 10.

(** [s.split("\n")] *)
Fixpoint split_lines (s : string) : list string :=
  match s with
  | EmptyString => [""]
  | String c s' =>
      if Ascii.eqb c newline then "" :: split_lines s'
      else match split_lines s' with
           | l :: ls => String c l :: ls
           | [] => [String c ""]
           end
  end.

(** ["\n".join(ls)] *)
Definition join_lines (ls : list string) : string :=
  String.concat (String newline "") ls.

(** [s[n:]] *)
Fixpoint drop (n : nat) (s : string) : string :=
  match n, s with
  | O, _ => s
  | S n', String _ s' => drop n' s'
  | S _, EmptyString => ""
  end.

Definition lower_char (c : ascii) : ascii :=
  let n := nat_of_ascii c in
  if ((65 <=? n) && (n <=? 90))%nat then ascii_of_nat (n + 32) else c.

(** [s.lower()] on ASCII text *)
Fixpoint lower (s : string) : string :=
  match s with
  | EmptyString => ""
  | String c s' => String (lower_char c) (lower s')
  end.

(** [v.lower()]: only a string has the method. *)
Definition lower_method (v : value) : result string :=
  match v with
  | VStr s => Ok (lower s)
  | _ => Raise AttributeError
  end.

End Py.
Import Py.

Notation "x <- c ;; k" := (rbind c (fun x => k))
  (at level 100, c at next level, right associativity).

(** ** The response parser shared by every stage *)

(** The text handed to [json.loads]: the reply stripped, and when it opens
    with a code fence, without its first and last line (when there are more
    than two) and without a leading [json] tag. *)
Definition clean_response (text : string) : string :=
  let response_text := strip text in
  if prefix "```" response_text then
    let lines := split_lines response_text in
    let response_text :=
      if (2 <? List.length lines)%nat
      then join_lines (removelast (tl lines))
      else response_text in
    if prefix "json" response_text
    then strip (drop 4 response_text)
    else response_text
  else response_text.

(** [enumerate(l)] *)
Definition enumerate {A} (l : list A) : list (nat * A) :=
  combine (seq 0 (List.length l)) l.

(** [range(0, n, step)]: a zero step raises, a negative one gives nothing. *)
Definition range_step (n : nat) (step : Z) : result (list nat) :=
  if step =? 0 then Raise ValueError
  else if step <? 0 then Ok []
  else
    let s := Z.to_nat step in
    Ok (map (fun k => (k * s)%nat) (seq 0 ((n + s - 1) / s)%nat)).

(** [l[i:i+size]] for [0 <= i] and [0 < size] *)
Definition slice {A} (i : nat) (size : Z) (l : list A) : list A :=
  firstn (Z.to_nat size) (skipn i l).

(** ** field_processor.py *)

Section FieldProcessor.

(** [llm k] is what request number [k] of the run produces: the text
    [response.content[0].text], or the exception raised on the way to it. *)
Variable llm : nat -> result string.

(** [json.loads]; [None] stands for [json.JSONDecodeError]. *)
Variable json_loads : string -> option value.

(** The order in which [list(s)] visits the elements of a set [s]. *)
Variable list_of_set : list value -> list value.
Hypothesis list_of_set_perm : forall xs, Permutation (list_of_set xs) xs.

(** Computations that make requests: the number of requests made so far is
    threaded through, also past an exception. *)
Definition M (A : Type) : Type := nat -> result A * nat.

Definition ret {A} (a : A) : M A := fun n => (Ok a, n).

Definition bind {A B} (c : M A) (k : A -> M B) : M B :=
  fun n =>
    match c n with
    | (Ok a, n') => k a n'
    | (Raise e, n') => (Raise e, n')
    end.

Definition lift {A} (r : result A) : M A := fun n => (r, n).

(** [self.client.messages.create(...)] followed by [.content[0].text] *)
Definition messages_create : M string := fun n => (llm n, S n).

(** [try: c except Exception: handler] *)
Definition try_except {A} (c : M A) (handler : M A) : M A :=
  fun n =>
    match c n with
    | (Ok a, n') => (Ok a, n')
    | (Raise _, n') => handler n'
    end.

Notation "x <<- c ;; k" := (bind c (fun x => k))
  (at level 100, c at next level, right associativity).

Fixpoint mfold {A S} (f : S -> A -> M S) (l : list A) (s : S) : M S :=
  match l with
  | [] => ret s
  | x :: xs => s' <<- f s x ;; mfold f xs s'
  end.

(** [json.loads(response_text)] inside a stage: the decoded value, or
    [None] where the stage takes its fallback. *)
Definition parse_response (response : string) : option value :=
  json_loads (clean_response response).

(** *** Deduplication *)

Definition dedup_summary (fields : list dict) : result (list value) :=
  rmap (fun '(idx, field) =>
          name <- dict_getitem "field_name" field ;;
          source <- dict_getitem "source_pdf" field ;;
          Ok (VDict [("index", VInt (Z.of_nat idx));
                     ("field_name", name);
                     ("source_pdf", source);
                     ("type", dict_get_default "field_type" (VStr "text") field)]))
       (enumerate fields).

(** One turn of the loop [for group in groups] of [_deduplicate_batch]. *)
Definition merge_group (fields : list dict) (deduplicated : list dict)
    (group : value) : result (list dict) :=
  indices <- getitem group (VStr "field_indices") ;;
  if negb (truthy indices) then Ok deduplicated
  else
    first <- getitem indices (VInt 0) ;;
    base_field <- list_getitem fields first ;;
    canonical_name <- getitem group (VStr "canonical_name") ;;
    let base_field := dict_set "field_name" canonical_name base_field in
    idxs <- iter indices ;;
    sources <- rmap (fun idx => field <- list_getitem fields idx ;;
                                dict_getitem "source_pdf" field) idxs ;;
    source_set <- set_of sources ;;
    let base_field :=
      dict_set "sources" (VList (list_of_set source_set)) base_field in
    Ok (deduplicated ++ [base_field]).

Definition merge_groups (fields : list dict) (groups : value)
    : result (list dict) :=
  gs <- iter groups ;;
  rfold (merge_group fields) gs [].

Definition _deduplicate_batch (fields : list dict) : M (list dict) :=
  _ <<- lift (dedup_summary fields) ;;
  response <<- messages_create ;;
  match parse_response response with
  | None => ret fields
  | Some groups => lift (merge_groups fields groups)
  end.

(** One turn of the loop over the batch starts of [_deduplicate_fields]. *)
Definition deduplicate_turn (fields : list dict) (batch_size : Z)
    (all_deduplicated : list dict) (i : nat) : M (list dict) :=
  let batch := slice i batch_size fields in
  deduplicated_batch <<- _deduplicate_batch batch ;;
  ret (all_deduplicated ++ deduplicated_batch).

Definition _deduplicate_fields (fields : list dict) (batch_size : Z)
    : M (list dict) :=
  match fields with
  | [] => ret []
  | _ =>
      starts <<- lift (range_step (List.length fields) batch_size) ;;
      mfold (deduplicate_turn fields batch_size) starts []
  end.

(** *** Grouping *)

Definition group_summary (fields : list dict) : result (list value) :=
  rmap (fun '(idx, field) =>
          name <- dict_getitem "field_name" field ;;
          Ok (VDict [("index", VInt (Z.of_nat idx));
                     ("field_name", name);
                     ("type", dict_get_default "field_type" (VStr "text") field)]))
       (enumerate fields).

(** The groups used when the grouping reply does not decode. *)
Definition singleton_groups (n : nat) : value :=
  VList (map (fun idx =>
                VDict [("group_name", VStr (String.append "group_" (str_of_nat idx)));
                       ("field_indices", VList [VInt (Z.of_nat idx)]);
                       ("description", VStr "")])
             (seq 0 n)).

(** One turn of the inner loop [for field_idx in group["field_indices"]]. *)
Definition tag_field (fields : list dict) (group_id : nat)
    (grouped_fields : list dict) (field_idx : value) : result (list dict) :=
  match as_int field_idx with
  | None => Raise TypeError
  | Some i =>
      if i <? Z.of_nat (List.length fields) then
        field <- list_index fields i ;;
        let field := dict_set "_group_id" (VInt (Z.of_nat group_id)) field in
        Ok (grouped_fields ++ [field])
      else Ok grouped_fields
  end.

Definition tag_group (fields : list dict) (grouped_fields : list dict)
    (g : nat * value) : result (list dict) :=
  let '(group_id, group) := g in
  indices <- getitem group (VStr "field_indices") ;;
  idxs <- iter indices ;;
  rfold (tag_field fields group_id) idxs grouped_fields.

Definition tag_groups (fields : list dict) (groups : value)
    : result (list dict) :=
  gs <- iter groups ;;
  rfold (tag_group fields) (enumerate gs) [].

Definition _group_fields (fields : list dict) : M (list dict) :=
  match fields with
  | [] => ret []
  | _ =>
      _ <<- lift (group_summary fields) ;;
      response <<- messages_create ;;
      let groups :=
        match parse_response response with
        | Some groups => groups
        | None => singleton_groups (List.length fields)
        end in
      lift (tag_groups fields groups)
  end.

(** *** Labels *)

Definition _generate_label_and_explanation (field_name : value) : M value :=
  try_except
    (response <<- messages_create ;;
     match parse_response response with
     | Some result => ret result
     | None => lift (Raise ValueError)
     end)
    (lift (lowered <- lower_method field_name ;;
           Ok (VDict
                 [("label", VStr (String.append "What is your "
                                    (String.append lowered "?")));
                  ("explanation", VStr (String.append "Enter your " lowered))]))).

(** *** Conditional logic and schema assembly *)

(** The output mapping: keys are whatever the code stores under (a
    question id out of the decoded reply, a field name), compared as
    Python compares dictionary keys. *)
Definition schema : Type := list (value * value).

(** [output[k] = v] *)
Definition schema_set (k v : value) (output : schema) : result schema :=
  if hashable k then Ok (assoc_set key_eqb k v output) else Raise TypeError.

(** [output[k]] *)
Definition schema_getitem (k : value) (output : schema) : result value :=
  if hashable k then
    match assoc_get key_eqb k output with
    | Some v => Ok v
    | None => Raise KeyError
    end
  else Raise TypeError.

(** [output[k][name] = v] *)
Definition schema_set_inner (k : value) (name : string) (v : value)
    (output : schema) : result schema :=
  entry <- schema_getitem k output ;;
  match entry with
  | VDict d => schema_set k (VDict (dict_set name v d)) output
  | _ => Raise TypeError
  end.

Definition logic_summary (fields : list dict) : result (list value) :=
  rmap (fun '(idx, field) =>
          name <- dict_getitem "field_name" field ;;
          Ok (VDict [("index", VInt (Z.of_nat idx)); ("field_name", name)]))
       (enumerate fields).

(** The value used when the structural-synthesis reply does not decode. *)
Definition no_conditional_logic : value :=
  VDict [("parent_questions", VList []); ("field_relationships", VDict [])].

(** One turn of the loop over the parent questions. *)
Definition add_parent_question (output : schema) (parent_q : value)
    : result schema :=
  q_id <- getitem parent_q (VStr "question_id") ;;
  label <- getitem parent_q (VStr "label") ;;
  type <- getitem parent_q (VStr "type") ;;
  options <- get_method "options" VNone parent_q ;;
  schema_set q_id
    (VDict [("label", label);
            ("type", type);
            ("required", VBool false);
            ("options", options);
            ("_metadata", VDict [("is_parent_question", VBool true);
                                 ("generated", VBool true)])])
    output.

(** [parent_id] and [parent_condition] of a relationship entry. *)
Definition parent_of (relationship : value) : value * value :=
  if truthy relationship then
    match relationship with
    | VDict d =>
        (dict_get_default "parent_id" VNone d,
         dict_get_default "condition" VNone d)
    | _ => (relationship, VNone)
    end
  else (VNone, VNone).

(** The [_metadata] block of a field entry. *)
Definition field_metadata (name : value) (idx : nat) (field : dict)
    (relationship : value) : dict :=
  let order_index := dict_get_default "_group_id" (VInt (Z.of_nat idx)) field in
  let '(parent_id, parent_condition) := parent_of relationship in
  let metadata :=
    [("field_name", name);
     ("source_pdf",
      dict_get_default "sources"
        (VList [dict_get_default "source_pdf" VNone field]) field);
     ("order_index", order_index);
     ("parent", parent_id);
     ("position", VNone)] in
  if truthy parent_condition
  then dict_set "parent_condition" parent_condition metadata
  else metadata.

(** One turn of the loop over the fields. *)
Definition add_field (relationships : value) (output : schema)
    (f : nat * dict) : M schema :=
  let '(idx, field) := f in
  name <<- lift (dict_getitem "field_name" field) ;;
  label_explanation <<- _generate_label_and_explanation name ;;
  relationship <<- lift (get_method (str_of_nat idx) VNone relationships) ;;
  let field_key := name in
  let metadata := field_metadata name idx field relationship in
  label <<- lift (getitem label_explanation (VStr "label")) ;;
  explanation <<- lift (getitem label_explanation (VStr "explanation")) ;;
  lowered <<- lift (lower_method name) ;;
  output <<- lift (schema_set field_key
    (VDict [("label", label);
            ("explanation", explanation);
            ("type", dict_get_default "field_type" (VStr "text") field);
            ("required", dict_get_default "required" (VBool false) field);
            ("placeholder", VStr (String.append "Enter your " lowered));
            ("_metadata", VDict metadata)])
    output) ;;
  output <<-
    (if truthy (dict_get_default "options" VNone field) then
       lift (options <- dict_getitem "options" field ;;
             schema_set_inner field_key "options" options output)
     else ret output) ;;
  if truthy (dict_get_default "max_length" VNone field) then
    lift (max_length <- dict_getitem "max_length" field ;;
          schema_set_inner field_key "max_length" max_length output)
  else ret output.

(** The part of [_generate_conditional_logic] after the reply is decoded. *)
Definition assemble (conditional_logic : value) (fields : list dict)
    : M schema :=
  parent_questions <<-
    lift (get_method "parent_questions" (VList []) conditional_logic) ;;
  parent_qs <<- lift (iter parent_questions) ;;
  output <<- lift (rfold add_parent_question parent_qs []) ;;
  relationships <<-
    lift (get_method "field_relationships" (VDict []) conditional_logic) ;;
  mfold (add_field relationships) (enumerate fields) output.

Definition _generate_conditional_logic (fields : list dict) : M schema :=
  _ <<- lift (logic_summary fields) ;;
  response <<- messages_create ;;
  let conditional_logic :=
    match parse_response response with
    | Some conditional_logic => conditional_logic
    | None => no_conditional_logic
    end in
  assemble conditional_logic fields.

Definition process_fields (fields : list dict) (batch_size : Z) : M schema :=
  deduplicated_fields <<- _deduplicate_fields fields batch_size ;;
  grouped_fields <<- _group_fields deduplicated_fields ;;
  _generate_conditional_logic grouped_fields.

End FieldProcessor.

(** ** pdf_acroform_extractor.py *)

(** What [pypdf.PdfReader] gives for one file.  The objects of the PDF
    library are seen as values of the builtin types they subclass. *)
Record pdf_reader : Type := {
  get_form_text_fields : option value;
  get_fields : option (list (string * value))
}.

Section PDFAcroformExtractor.

(** The builtins [str(v)] and [int(v)]. *)
Variable py_str : value -> string.
Variable py_int : value -> result Z.
Hypothesis py_str_VStr : forall s, py_str (VStr s) = s.

(** [Path(p).exists()], [Path(p).name], and opening [p] with the PDF
    library (which may raise). *)
Variable path_exists : string -> bool.
Variable path_name : string -> string.
Variable open_pdf : string -> result pdf_reader.

Definition type_mapping : list (string * string) :=
  [("/Tx", "text"); ("/Btn", "button"); ("/Ch", "choice");
   ("/Sig", "signature")].

Definition _get_field_type (field_info : value) : string :=
  match field_info with
  | VDict d =>
      let field_type := dict_get_default "/FT" (VStr "") d in
      match assoc_get String.eqb (py_str field_type) type_mapping with
      | Some t => t
      | None => "text"
      end
  | _ => "text"
  end.

Definition _is_required (field_info : value) : bool :=
  match field_info with
  | VDict d =>
      let flags := dict_get_default "/Ff" (VInt 0) d in
      match as_int flags with
      | Some z => negb (Z.land z 2 =? 0)
      | None => false
      end
  | _ => false
  end.

Definition _get_field_value (field_info : value) : value :=
  match field_info with
  | VDict d =>
      let v := dict_get_default "/V" VNone d in
      if truthy v then VStr (py_str v) else VNone
  | _ => VNone
  end.

Definition _get_field_options (field_info : value) : value :=
  match field_info with
  | VDict d =>
      match dict_get_default "/Opt" VNone d with
      | VList (_ :: _ as opts) => VList (map (fun opt => VStr (py_str opt)) opts)
      | _ => VNone
      end
  | _ => VNone
  end.

Definition _get_max_length (field_info : value) : result value :=
  match field_info with
  | VDict d =>
      let max_len := dict_get_default "/MaxLen" VNone d in
      if truthy max_len then (n <- py_int max_len ;; Ok (VInt n))
      else Ok VNone
  | _ => Ok VNone
  end.

Definition _get_page_number (field_info : value) : value := VNone.

Definition _extract_field_info (field_name : string) (field_info : value)
    (source_pdf : string) : result dict :=
  max_length <- _get_max_length field_info ;;
  Ok [("field_name", VStr field_name);
      ("source_pdf", VStr source_pdf);
      ("field_type", VStr (_get_field_type field_info));
      ("required", VBool (_is_required field_info));
      ("value", _get_field_value field_info);
      ("options", _get_field_options field_info);
      ("max_length", max_length);
      ("page", _get_page_number field_info)].

Definition extract_from_file (pdf_path : string) : result (list dict) :=
  if negb (path_exists pdf_path) then Raise FileNotFoundError
  else
    reader <- open_pdf pdf_path ;;
    match get_form_text_fields reader, get_fields reader with
    | None, None => Ok []
    | _, None => Ok []
    | _, Some form_fields =>
        rmap (fun '(field_name, field_info) =>
                _extract_field_info field_name field_info (path_name pdf_path))
             form_fields
    end.

Definition extract_from_multiple_files (pdf_paths : list string)
    : result (list dict) :=
  rfold (fun all_fields pdf_path =>
           fields <- extract_from_file pdf_path ;;
           Ok (all_fields ++ fields))
        pdf_paths [].

Definition extract_acroforms (pdf_paths : list string) : result (list dict) :=
  extract_from_multiple_files pdf_paths.

End PDFAcroformExtractor.

(** ** main.py *)

(** The parsed command line. *)
Record arguments : Type := {
  pdf_files : list string;
  input_list : option string;
  output : string;
  api_key : option string;
  batch_size : Z;
  extract_only : bool
}.

(** What [json.dump] is given to write. *)
Inductive file_content : Type :=
| RawExtraction (raw_output : value)
| CombinedForms (combined_forms : list (value * value)).

(** How a run ends: the exit status of the process and the files written, in
    order. *)
Record outcome : Type := {
  exit_code : Z;
  written : list (string * file_content)
}.

Section Main.

Variable llm : nat -> result string.
Variable json_loads : string -> option value.
Variable list_of_set : list value -> list value.

(** The file system: whether a path exists, the lines of a text file, the
    suffix of a path and its normal form ([Path(p).suffix], [str(Path(p))]),
    and whether a file can be opened for writing. *)
Variable path_exists : string -> bool.
Variable read_lines : string -> list string.
Variable path_suffix : string -> string.
Variable path_str : string -> string.
Variable writable : string -> bool.

(** [extract_acroforms] over that file system. *)
Variable extract_acroforms : list string -> result (list dict).

(** [os.getenv("ANTHROPIC_API_KEY")] after [load_dotenv()]. *)
Variable env_api_key : option string.

Definition nonempty (s : option string) : bool :=
  match s with
  | Some s => negb (String.eqb s "")
  | None => false
  end.

(** [load_pdf_paths]: the valid paths, or the status [sys.exit] is called
    with. *)
Definition load_pdf_paths (args : arguments) : list string + Z :=
  let paths :=
    match input_list args with
    | Some file =>
        if negb (String.eqb file "") then
          if negb (path_exists file) then inr 1
          else inl (filter (fun line => negb (String.eqb line ""))
                           (map strip (read_lines file)))
        else inl (pdf_files args)
    | None => inl (pdf_files args)
    end in
  match paths with
  | inr code => inr code
  | inl paths =>
      let valid_paths :=
        map path_str
            (filter (fun path =>
                       path_exists path
                       && String.eqb (lower (path_suffix path)) ".pdf")
                    paths) in
      match valid_paths with
      | [] => inr 1
      | _ => inl valid_paths
      end
  end.

(** [FieldProcessor(api_key=...)]: the constructor fails without a key. *)
Definition new_processor (key : option string) : result unit :=
  if nonempty key || nonempty env_api_key then Ok tt else Raise ValueError.

(** [main] once [parse_arguments] has returned [args], from the call of
    [load_pdf_paths] on.  A command line that [argparse] rejects ends the
    process inside [parse_arguments], before any of this, and is not part of
    the model.  An exception that [main] does not catch ends the process with
    status 1. *)
Definition main (args : arguments) : outcome :=
  match load_pdf_paths args with
  | inr code => {| exit_code := code; written := [] |}
  | inl pdf_paths =>
      match extract_acroforms pdf_paths with
      | Raise _ => {| exit_code := 1; written := [] |}
      | Ok extracted_fields =>
          match extracted_fields with
          | [] => {| exit_code := 0; written := [] |}
          | _ =>
              if extract_only args then
                let raw_output :=
                  VDict [("total_fields",
                          VInt (Z.of_nat (List.length extracted_fields)));
                         ("fields", VList (map VDict extracted_fields))] in
                if writable (output args) then
                  {| exit_code := 0;
                     written := [(output args, RawExtraction raw_output)] |}
                else {| exit_code := 1; written := [] |}
              else
                let processed :=
                  _ <- new_processor (api_key args) ;;
                  fst (process_fields llm json_loads list_of_set
                         extracted_fields (batch_size args) O) in
                match processed with
                | Raise _ => {| exit_code := 1; written := [] |}
                | Ok combined_forms =>
                    if writable (output args) then
                      {| exit_code := 0;
                         written :=
                           [(output args, CombinedForms combined_forms)] |}
                    else {| exit_code := 1; written := [] |}
                end
          end
      end
  end.

End Main.

(** * Vocabulary of the statements *)

(** The type codes the extractor recognises and the types it emits. *)
Definition field_type_codes : list string := ["/Tx"; "/Btn"; "/Ch"; "/Sig"].
Definition field_types : list string := ["text"; "button"; "choice"; "signature"].

(** The label request numbered [n] fails: the request raises, or the reply
    does not decode. *)
Definition label_request_fails (llm : nat -> result string)
    (json_loads : string -> option value) (n : nat) : Prop :=
  match llm n with
  | Raise _ => True
  | Ok response => parse_response json_loads response = None
  end.

(** The templated label and explanation. *)
Definition templated_label (field_name : string) : value :=
  VDict [("label", VStr (String.append "What is your "
                           (String.append (lower field_name) "?")));
         ("explanation", VStr (String.append "Enter your " (lower field_name)))].

(** A [str] that is exact on strings, for concrete runs. *)
Definition str_of_text (v : value) : string :=
  match v with
  | VStr s => s
  | _ => "<object>"
  end.

(** A record has the key [k]. *)
Definition has_key (k : string) (f : dict) : Prop := dict_get k f <> None.

(** The element [l[i]] selects, for [-len <= i < len]. *)
Definition position {A} (l : list A) (i : Z) : nat :=
  Z.to_nat (if i <? 0 then i + Z.of_nat (List.length l) else i).

(** A record tagged with the group at [group_id]. *)
Definition tagged (group_id : nat) (f : dict) : dict :=
  dict_set "_group_id" (VInt (Z.of_nat group_id)) f.

(** ** Collaborators and records for concrete runs *)

(** A model that answers in prose, and a decoder that rejects it. *)
Definition prose_llm : nat -> result string :=
  fun _ => Ok "Sorry, I cannot produce that.".

Definition reject_json : string -> option value := fun _ => None.

(** The two records of the end-to-end scenario. *)
Definition name_a : dict :=
  [("field_name", VStr "Name"); ("source_pdf", VStr "a.pdf")].

Definition full_name_b : dict :=
  [("field_name", VStr "Full Name"); ("source_pdf", VStr "b.pdf")].

(** The batch starts [range(0, n, size)] visits, for a positive [size]. *)
Definition batch_starts (n size : nat) : list nat :=
  map (fun k => (k * size)%nat) (seq 0 ((n + size - 1) / size)%nat).

(** A record of the data model as far as deduplication reads it: a name, and
    a source document that is a string. *)
Definition field_record (f : dict) : Prop :=
  has_key "field_name" f /\ exists source, dict_get "source_pdf" f = Some (VStr source).

(** A decoder given by a table from texts to the values they denote. *)
Definition table_json (table : list (string * value)) : string -> option value :=
  fun text => assoc_get String.eqb text table.

Definition dq : string := String (ascii_of_nat 34) "".

(** The text [[{"canonical_name": name, "field_indices": indices}]] and the
    value it denotes, for a group of one or two indices. *)
Definition group_text (name indices : string) : string :=
  String.concat ""
    ["[{"; dq; "canonical_name"; dq; ": "; dq; name; dq; ", ";
     dq; "field_indices"; dq; ": ["; indices; "]}]"].

Definition group_value (name : string) (indices : list Z) : value :=
  VList [VDict [("canonical_name", VStr name);
                ("field_indices", VList (map VInt indices))]].

(** A run of two requests: prose first, then one group renaming field 0. *)
Definition prose_then_rename : nat -> result string :=
  fun n => match n with
           | O => Ok "Sorry, I cannot produce that."
           | _ => Ok (group_text "Applicant Name" "0")
           end.

Definition rename_json : string -> option value :=
  table_json [(group_text "Applicant Name" "0", group_value "Applicant Name" [0])].

(** Sets listed in order of insertion. *)
Definition insertion_order (xs : list value) : list value := xs.

(** The reply of the end-to-end scenario: both fields are "Full Name". *)
Definition merge_llm : nat -> result string :=
  fun _ => Ok (group_text "Full Name" "0, 1").

Definition merge_json : string -> option value :=
  table_json [(group_text "Full Name" "0, 1", group_value "Full Name" [0; 1])].

(** ** Deduplication groups *)

(** A decoded group: an object with a canonical name and a list of integer
    indices. *)
Definition decodes_to (g : value) (t : value * list Z) : Prop :=
  exists d, g = VDict d /\
            dict_get "canonical_name" d = Some (fst t) /\
            dict_get "field_indices" d = Some (VList (map VInt (snd t))).

(** [i] indexes [fields] without an [IndexError]. *)
Definition in_range {A} (fields : list A) (i : Z) : Prop :=
  - Z.of_nat (List.length fields) <= i < Z.of_nat (List.length fields).

(** The record [fields[i]] for an index in range. *)
Definition record_at (fields : list dict) (i : Z) : option dict :=
  nth_error fields (position fields i).

Definition listed (t : value * list Z) : bool :=
  match snd t with
  | [] => false
  | _ => true
  end.

(** [m] is the merge of the group [t] over [fields]: the record at the first
    listed index, renamed to the canonical name, with the distinct source
    documents of the listed records under [sources], and every other entry
    (the record's own [source_pdf] among them) as in that record. *)
Definition is_merge (fields : list dict) (t : value * list Z) (m : dict) : Prop :=
  exists first others base,
    snd t = first :: others /\
    record_at fields first = Some base /\
    dict_get "field_name" m = Some (fst t) /\
    (forall k, k <> "field_name" -> k <> "sources" ->
               dict_get k m = dict_get k base) /\
    exists sources,
      dict_get "sources" m = Some (VList sources) /\
      NoDup sources /\
      forall s, In s sources <->
                exists i f, In i (snd t) /\ record_at fields i = Some f /\
                            dict_get "source_pdf" f = Some s.

(** What C1 asks of a merged record: its [source_pdf] entry is the set of
    the given sources. *)
Definition source_pdf_is_set (m : dict) (sources : list value) : Prop :=
  exists l, dict_get "source_pdf" m = Some (VList l) /\
            forall s, In s l <-> In s sources.

(** A decodable reply that lists index 5 for a batch of one field. *)
Definition stray_llm : nat -> result string :=
  fun _ => Ok (group_text "Name" "5").

Definition stray_json : string -> option value :=
  table_json [(group_text "Name" "5", group_value "Name" [5])].

(** ** Grouping replies *)

(** A decoded group of the grouping reply: an object with a list of integer
    indices. *)
Definition group_decodes (g : value) (indices : list Z) : Prop :=
  exists d, g = VDict d /\
            dict_get "field_indices" d = Some (VList (map VInt indices)).

(** The records one listed index contributes: none when it is at least the
    number of fields, else the field it selects, tagged with the group. *)
Definition grouped_record (fields : list dict) (group_id : nat) (i : Z)
    : list dict :=
  if i <? Z.of_nat (List.length fields) then
    match record_at fields i with
    | Some f => [tagged group_id f]
    | None => []
    end
  else [].

(** Group after group, index after index. *)
Definition grouped_records (fields : list dict) (groups : list (nat * list Z))
    : list dict :=
  flat_map (fun g => flat_map (grouped_record fields (fst g)) (snd g)) groups.

(** The text [[{"group_name": name, "field_indices": indices}]]. *)
Definition grouping_text (name indices : string) : string :=
  String.concat ""
    ["[{"; dq; "group_name"; dq; ": "; dq; name; dq; ", ";
     dq; "field_indices"; dq; ": ["; indices; "]}]"].

Definition grouping_value (name : string) (indices : list Z) : value :=
  VList [VDict [("group_name", VStr name);
                ("field_indices", VList (map VInt indices))]].

(** A grouping reply listing [-2] for one field, and one listing
    [1, 5, -1, 1] for two fields. *)
Definition far_negative_llm : nat -> result string :=
  fun _ => Ok (grouping_text "name" "-2").

Definition far_negative_json : string -> option value :=
  table_json [(grouping_text "name" "-2", grouping_value "name" [-2])].

Definition uneven_llm : nat -> result string :=
  fun _ => Ok (grouping_text "name" "1, 5, -1, 1").

Definition uneven_json : string -> option value :=
  table_json [(grouping_text "name" "1, 5, -1, 1",
               grouping_value "name" [1; 5; -1; 1])].

(** ** A run over one PDF without form fields *)

Definition int_of_number (v : value) : result Z :=
  match as_int v with
  | Some z => Ok z
  | None => Raise ValueError
  end.

Definition every_path : string -> bool := fun _ => true.

Definition pdf_suffix : string -> string := fun _ => ".pdf".

Definition same_path : string -> string := fun p => p.

Definition no_lines : string -> list string := fun _ => [].

(** A reader that finds no interactive form. *)
Definition blank_pdf : string -> result pdf_reader :=
  fun _ => Ok {| get_form_text_fields := None; get_fields := None |}.

Definition extract_blank : list string -> result (list dict) :=
  extract_acroforms str_of_text int_of_number every_path same_path blank_pdf.

Definition extract_only_args : arguments :=
  {| pdf_files := ["blank.pdf"];
     input_list := None;
     output := "combined_forms.json";
     api_key := None;
     batch_size := 50;
     extract_only := true |}.

(** The file C2 expects after an extraction without fields. *)
Definition empty_raw_extraction : file_content :=
  RawExtraction (VDict [("total_fields", VInt 0); ("fields", VList [])]).

(** ** Output entries *)

(** The [_metadata] block of an output entry. *)
Definition metadata_of (entry : value) : option dict :=
  match entry with
  | VDict e =>
      match dict_get "_metadata" e with
      | Some (VDict metadata) => Some metadata
      | _ => None
      end
  | _ => None
  end.

(** An entry counts as a parent question when its metadata says so, the way
    [main] counts them. *)
Definition is_parent_entry (entry : value) : bool :=
  match metadata_of entry with
  | Some metadata => truthy (dict_get_default "is_parent_question" VNone metadata)
  | None => false
  end.

(** A label request that lets the assembly go on: it fails (and the template
    is used), or its reply decodes to an object with a label and an
    explanation. *)
Definition label_reply_usable (llm : nat -> result string)
    (json_loads : string -> option value) (k : nat) : Prop :=
  match llm k with
  | Raise _ => True
  | Ok response =>
      match parse_response json_loads response with
      | None => True
      | Some v => exists d label explanation,
          v = VDict d /\ dict_get "label" d = Some label /\
          dict_get "explanation" d = Some explanation
      end
  end.

(** A field whose name is a string. *)
Definition named (f : dict) : Prop :=
  exists s, dict_get "field_name" f = Some (VStr s).

(** ** The field loop as a relation *)

(** [stored relationships k fields output out]: starting from [output], the
    fields, numbered from [k], each put an entry with their own metadata
    under their name, one after the other, and [out] is the result. *)
Inductive stored (relationships : value)
    : nat -> list dict -> list (value * value) -> list (value * value) -> Prop :=
| stored_nil k output : stored relationships k [] output output
| stored_cons k field fields output s r e out :
    dict_get "field_name" field = Some (VStr s) ->
    get_method (str_of_nat k) VNone relationships = Ok r ->
    dict_get "_metadata" e
    = Some (VDict (field_metadata (VStr s) k field r)) ->
    stored relationships (S k) fields
      (assoc_set key_eqb (VStr s) (VDict e) output) out ->
    stored relationships k (field :: fields) output out.

(** No field after position [j] is called [s]. *)
Definition last_named (fields : list dict) (j : nat) (s : string) : Prop :=
  forall i f, (j < i)%nat -> nth_error fields i = Some f ->
              dict_get "field_name" f <> Some (VStr s).

(** [key] is the name of none of the fields. *)
Definition not_a_field_name (fields : list dict) (key : value) : Prop :=
  forall f s, In f fields -> dict_get "field_name" f = Some (VStr s) ->
              key_eqb (VStr s) key = false.


(** A parent question the assembly accepts: an object with a hashable
    question id, a label and a type. *)
Definition parent_question_ok (parent_q : value) : Prop :=
  exists d q label type,
    parent_q = VDict d /\ dict_get "question_id" d = Some q /\
    hashable q = true /\ dict_get "label" d = Some label /\
    dict_get "type" d = Some type.

(** A decoded structural-synthesis reply the assembly accepts. *)
Definition logic_ok (conditional_logic : value) : Prop :=
  exists d,
    conditional_logic = VDict d /\
    (exists parent_qs,
        dict_get_default "parent_questions" (VList []) d = VList parent_qs /\
        Forall parent_question_ok parent_qs) /\
    (exists relationships,
        dict_get_default "field_relationships" (VDict []) d
        = VDict relationships).




(** ** A parent question named like a field *)

(** A decoded structural reply whose only parent question has the id
    ["Name"], the name of the field [name_a]. *)
Definition colliding_logic : value :=
  VDict [("parent_questions",
          VList [VDict [("question_id", VStr "Name");
                        ("label", VStr "Do you have a name?");
                        ("type", VStr "boolean")]]);
         ("field_relationships", VDict [])].

(** The entry of the field [name_a] at position 0 when its label request
    fails and no relationship mentions it. *)
Definition name_entry : dict :=
  [("label", VStr "What is your name?");
   ("explanation", VStr "Enter your name");
   ("type", VStr "text");
   ("required", VBool false);
   ("placeholder", VStr "Enter your name");
   ("_metadata",
    VDict [("field_name", VStr "Name");
           ("source_pdf", VList [VStr "a.pdf"]);
           ("order_index", VInt 0);
           ("parent", VNone);
           ("position", VNone)])].


(** ** A run over one PDF with a single text field *)

Definition one_field_pdf : string -> result pdf_reader :=
  fun _ => Ok {| get_form_text_fields := Some (VDict [("Name", VNone)]);
                 get_fields := Some [("Name", VDict [("/FT", VStr "/Tx");
                                                     ("/Ff", VInt 2)])] |}.

Definition extract_one_field : list string -> result (list dict) :=
  extract_acroforms str_of_text int_of_number every_path same_path one_field_pdf.

Definition full_run_args : arguments :=
  {| pdf_files := ["form.pdf"];
     input_list := None;
     output := "combined_forms.json";
     api_key := Some "key";
     batch_size := 50;
     extract_only := false |}.

(** A reply inside a code fence tagged [json]. *)
Definition fenced_reply : string :=
  String.concat (String newline "") ["```json"; "[]"; "```"].

(** ** Extracted records *)

(** The keys of an extracted record, in order. *)
Definition record_keys : list string :=
  ["field_name"; "source_pdf"; "field_type"; "required"; "value"; "options";
   "max_length"; "page"].

(** The form fields a reader reports, none when it reports no form. *)
Definition form_fields_of (reader : pdf_reader) : list (string * value) :=
  match get_fields reader with
  | Some form_fields => form_fields
  | None => []
  end.

(** A record as the extractor emits it for the field [name] of the document
    [source]. *)
Definition extracted_record (name source : string) (r : dict) : Prop :=
  keys r = record_keys /\
  dict_get "field_name" r = Some (VStr name) /\
  dict_get "source_pdf" r = Some (VStr source) /\
  (exists t, dict_get "field_type" r = Some (VStr t) /\ In t field_types) /\
  (exists b, dict_get "required" r = Some (VBool b)).

(** A reader over two documents: [a.pdf] has the fields Name and Age, every
    other document has no form; only [a.pdf] and [b.pdf] exist. *)
Definition two_documents : string -> result pdf_reader :=
  fun p =>
    if String.eqb p "a.pdf" then
      Ok {| get_form_text_fields := Some (VDict []);
            get_fields := Some [("Name", VDict [("/FT", VStr "/Tx")]);
                                ("Age", VDict [("/FT", VStr "/Tx");
                                               ("/MaxLen", VInt 3)])] |}
    else Ok {| get_form_text_fields := None; get_fields := None |}.

Definition a_and_b_exist : string -> bool :=
  fun p => String.eqb p "a.pdf" || String.eqb p "b.pdf".

(** ** More replies for concrete runs *)

(** The text of [colliding_logic]. *)
Definition logic_text : string :=
  String.concat ""
    ["{"; dq; "parent_questions"; dq; ": [{"; dq; "question_id"; dq; ": ";
     dq; "Name"; dq; ", "; dq; "label"; dq; ": "; dq; "Do you have a name?";
     dq; ", "; dq; "type"; dq; ": "; dq; "boolean"; dq; "}], ";
     dq; "field_relationships"; dq; ": {}}"].

(** A run whose first reply is that text, and prose afterwards. *)
Definition logic_llm : nat -> result string :=
  fun n => match n with
           | O => Ok logic_text
           | _ => Ok "Sorry, I cannot produce that."
           end.

Definition logic_json : string -> option value :=
  table_json [(logic_text, colliding_logic)].

(** A service that is down. *)
Definition timeout_llm : nat -> result string :=
  fun _ => Raise (RequestError "timeout").

(** A model that answers every request with an empty object. *)
Definition empty_object_llm : nat -> result string := fun _ => Ok "{}".

Definition empty_object_json : string -> option value :=
  table_json [("{}", VDict [])].

(** ** More command lines *)

Definition three_paths_args : arguments :=
  {| pdf_files := ["a.pdf"; "ghost.pdf"; "b.pdf"];
     input_list := None;
     output := "combined_forms.json";
     api_key := None;
     batch_size := 50;
     extract_only := true |}.

Definition missing_list_args : arguments :=
  {| pdf_files := [];
     input_list := Some "list.txt";
     output := "combined_forms.json";
     api_key := None;
     batch_size := 50;
     extract_only := false |}.

(** The paths a command line lists: the stripped lines of the list file that
    are not blank when a list file is named, the positional arguments
    otherwise. *)
Definition listed_paths (read_lines : string -> list string)
    (args : arguments) : list string :=
  match input_list args with
  | Some file =>
      if String.eqb file "" then pdf_files args
      else filter (fun line => negb (String.eqb line ""))
                  (map strip (read_lines file))
  | None => pdf_files args
  end.

(** A list file is named and does not exist. *)
Definition list_file_missing (path_exists : string -> bool)
    (args : arguments) : bool :=
  match input_list args with
  | Some file => negb (String.eqb file "") && negb (path_exists file)
  | None => false
  end.

(** A path that exists and whose suffix is [.pdf] up to letter case. *)
Definition existing_pdf (path_exists : string -> bool)
    (path_suffix : string -> string) (path : string) : Prop :=
  path_exists path = true /\ lower (path_suffix path) = ".pdf".

(** [s] is [l] with some elements left out, the others in the same order. *)
Inductive subsequence {A : Type} : list A -> list A -> Prop :=
| subsequence_nil : subsequence [] []
| subsequence_keep x s l : subsequence s l -> subsequence (x :: s) (x :: l)
| subsequence_skip x s l : subsequence s l -> subsequence s (x :: l).

(** A command line naming a list file of four lines. *)
Definition list_file_args : arguments :=
  {| pdf_files := [];
     input_list := Some "list.txt";
     output := "combined_forms.json";
     api_key := None;
     batch_size := 50;
     extract_only := false |}.

Definition four_lines : string -> list string :=
  fun _ => ["  b.pdf "; ""; "ghost.pdf"; "a.pdf"].

Definition list_and_pdfs_exist : string -> bool :=
  fun p => String.eqb p "list.txt" || String.eqb p "a.pdf"
           || String.eqb p "b.pdf".

(** ** Lines *)

(** A line: a string without a line feed. *)
Definition no_newline (s : string) : bool :=
  forallb (fun c => negb (Ascii.eqb c newline)) (list_ascii_of_string s).

(** A fenced reply with white space around it, and one whose body begins
    with the word json. *)
Definition padded_fenced_reply : string :=
  String.append "  "
    (String.append
       (String.concat (String newline "") ["```json"; "[1,"; " 2]"; "```"])
       (String newline "")).

Definition json_word_reply : string :=
  String.concat (String newline "") ["```"; "json [1]"; "```"].

(** ** Relationships and groups for concrete runs *)

(** A decoded structural reply without parent questions whose relationships
    name a parent all the same: field 0 in the format with a condition, field
    1 in the legacy format. *)
Definition ghost_logic : value :=
  VDict [("parent_questions", VList []);
         ("field_relationships",
          VDict [("0", VDict [("parent_id", VStr "ghost");
                              ("condition",
                               VDict [("operator", VStr "equals");
                                      ("value", VBool true)])]);
                 ("1", VStr "ghost")])].

(** The record the end-to-end scenario merges. *)
Definition merged_full_name : dict :=
  [("field_name", VStr "Full Name"); ("source_pdf", VStr "a.pdf");
   ("sources", VList [VStr "a.pdf"; VStr "b.pdf"])].

(** A grouping reply of two groups, [1] and [0, 1]. *)
Definition two_groups_text : string :=
  String.concat ""
    ["[{"; dq; "group_name"; dq; ": "; dq; "contact"; dq; ", ";
     dq; "field_indices"; dq; ": [1]}, {"; dq; "group_name"; dq; ": ";
     dq; "name"; dq; ", "; dq; "field_indices"; dq; ": [0, 1]}]"].

Definition two_groups_llm : nat -> result string := fun _ => Ok two_groups_text.

Definition two_groups_json : string -> option value :=
  table_json
    [(two_groups_text,
      VList [VDict [("group_name", VStr "contact");
                    ("field_indices", VList [VInt 1])];
             VDict [("group_name", VStr "name");
                    ("field_indices", VList [VInt 0; VInt 1])]])].

(** The [_group_id] entries of a list of records. *)
Definition group_ids (records : list dict) : list (option value) :=
  map (dict_get "_group_id") records.

(** The entries that tag records with the groups [ids]. *)
Definition ids_as_entries (ids : list nat) : list (option value) :=
  map (fun g => Some (VInt (Z.of_nat g))) ids.

(** * Properties *)

(** ** Concrete runs of the primitives *)

Example list_index_from_the_end :
  list_index [10; 20; 30] (-1) = Ok 30 /\
  list_index [10; 20; 30] (-3) = Ok 10 /\
  list_index [10; 20; 30] (-4) = Raise IndexError /\
  list_index [10; 20; 30] 3 = Raise IndexError.
Proof. repeat split. Qed.

Example clean_response_fenced : clean_response fenced_reply = "[]".
Proof. reflexivity. Qed.

Example clean_response_plain : clean_response "  [1, 2] " = "[1, 2]".
Proof. reflexivity. Qed.

Example set_of_booleans_and_integers :
  set_of [VInt 1; VStr "a"; VBool true; VStr "a"] = Ok [VInt 1; VStr "a"] /\
  set_of [VStr "a"; VList []] = Raise TypeError.
Proof. split; reflexivity. Qed.

Example assoc_set_keeps_the_place :
  dict_set "a" (VInt 3) [("a", VInt 1); ("b", VInt 2)]
  = [("a", VInt 3); ("b", VInt 2)] /\
  dict_set "c" (VInt 3) [("a", VInt 1); ("b", VInt 2)]
  = [("a", VInt 1); ("b", VInt 2); ("c", VInt 3)].
Proof. split; reflexivity. Qed.

Example batch_starts_of_seven : batch_starts 7 3 = [0; 3; 6]%nat.
Proof. reflexivity. Qed.

Example extract_one_field_record :
  extract_one_field ["form.pdf"]
  = Ok [[("field_name", VStr "Name"); ("source_pdf", VStr "form.pdf");
         ("field_type", VStr "text"); ("required", VBool true);
         ("value", VNone); ("options", VNone); ("max_length", VNone);
         ("page", VNone)]].
Proof. reflexivity. Qed.

(** ** Association lists *)

Section AssocFacts.
Context {K V : Type} (eqb : K -> K -> bool).
Hypothesis eqb_sym : forall a b, eqb a b = eqb b a.
Hypothesis eqb_trans :
  forall a b c, eqb a b = true -> eqb b c = true -> eqb a c = true.

Lemma assoc_get_set_same (k : K) (v : V) d :
  eqb k k = true -> assoc_get eqb k (assoc_set eqb k v d) = Some v.
Proof.
  intros Hk. induction d as [|[k' v'] d IH]; simpl.
  - now rewrite Hk.
  - destruct (eqb k' k) eqn:E; simpl; rewrite E; auto.
Qed.

Lemma assoc_get_set_other (k k2 : K) (v : V) d :
  eqb k k2 = false -> assoc_get eqb k2 (assoc_set eqb k v d) = assoc_get eqb k2 d.
Proof.
  intros Hk. induction d as [|[k' v'] d IH]; simpl.
  - now rewrite Hk.
  - destruct (eqb k' k) eqn:E; simpl.
    + destruct (eqb k' k2) eqn:E2; auto.
      rewrite eqb_sym in E.
      rewrite (eqb_trans E E2) in Hk. discriminate.
    + destruct (eqb k' k2); auto.
Qed.

(** Storing under a key either keeps the key list or adds the key last. *)
Lemma keys_assoc_set (k : K) (v : V) d :
  keys (assoc_set eqb k v d) =
  if existsb (fun k' => eqb k' k) (keys d) then keys d else keys d ++ [k].
Proof.
  unfold keys. induction d as [|[k' v'] d IH]; simpl; auto.
  destruct (eqb k' k) eqn:E; simpl; auto.
  rewrite IH. destruct (existsb _ (map fst d)); auto.
Qed.



Lemma assoc_set_values (P : V -> Prop) (k : K) (v : V) d :
  P v -> Forall (fun kv => P (snd kv)) d ->
  Forall (fun kv => P (snd kv)) (assoc_set eqb k v d).
Proof.
  intros Hv. induction 1 as [|[k' v'] d Hx Hd IH]; simpl.
  - constructor; auto.
  - destruct (eqb k' k); constructor; auto.
Qed.

End AssocFacts.

Lemma key_eqb_sym a b : key_eqb a b = key_eqb b a.
Proof.
  destruct a, b; simpl; auto using String.eqb_sym, Z.eqb_sym.
Qed.

Lemma key_eqb_trans a b c :
  key_eqb a b = true -> key_eqb b c = true -> key_eqb a c = true.
Proof.
  destruct a, b, c; simpl; try discriminate; auto;
    rewrite ?Z.eqb_eq, ?String.eqb_eq; congruence.
Qed.

Lemma key_eqb_refl a : hashable a = true -> key_eqb a a = true.
Proof.
  destruct a; simpl; try discriminate; intros _;
    auto using Z.eqb_refl, String.eqb_refl.
Qed.

Lemma dict_get_set_same k v d : dict_get k (dict_set k v d) = Some v.
Proof.
  apply assoc_get_set_same. apply String.eqb_refl.
Qed.

Lemma dict_get_set_other k k2 v d :
  k <> k2 -> dict_get k2 (dict_set k v d) = dict_get k2 d.
Proof.
  intros Hk. apply assoc_get_set_other.
  - apply String.eqb_sym.
  - intros a b c. rewrite !String.eqb_eq. congruence.
  - now apply String.eqb_neq.
Qed.

(** ** Extraction *)

Ltac case_string_eqb :=
  repeat match goal with
         | |- context [String.eqb ?a ?b] =>
             let E := fresh "E" in
             destruct (String.eqb a b) eqn:E;
             [apply String.eqb_eq in E | apply String.eqb_neq in E]
         end.

(** C8: the type mapping is total.  Whatever the field info, the type is one
    of text, button, choice, signature; the codes /Tx, /Btn, /Ch, /Sig give
    text, button, choice, signature; every other code, a missing code and a
    field info that is not a dict give text. *)
Theorem get_field_type_total (py_str : value -> string)
    (py_str_VStr : forall s, py_str (VStr s) = s) :
  (forall field_info, In (_get_field_type py_str field_info) field_types) /\
  (forall d, dict_get "/FT" d = Some (VStr "/Tx") ->
             _get_field_type py_str (VDict d) = "text") /\
  (forall d, dict_get "/FT" d = Some (VStr "/Btn") ->
             _get_field_type py_str (VDict d) = "button") /\
  (forall d, dict_get "/FT" d = Some (VStr "/Ch") ->
             _get_field_type py_str (VDict d) = "choice") /\
  (forall d, dict_get "/FT" d = Some (VStr "/Sig") ->
             _get_field_type py_str (VDict d) = "signature") /\
  (forall d, ~ In (py_str (dict_get_default "/FT" (VStr "") d)) field_type_codes ->
             _get_field_type py_str (VDict d) = "text") /\
  (forall d, dict_get "/FT" d = None ->
             _get_field_type py_str (VDict d) = "text") /\
  (forall field_info, (forall d, field_info <> VDict d) ->
             _get_field_type py_str field_info = "text").
Proof.
  repeat split.
  - intros field_info. unfold field_types.
    destruct field_info; try (now left).
    unfold _get_field_type, type_mapping; cbn [assoc_get].
    case_string_eqb; cbn [In]; auto 6.
  - intros d H. unfold _get_field_type, dict_get_default.
    now rewrite H, py_str_VStr.
  - intros d H. unfold _get_field_type, dict_get_default.
    now rewrite H, py_str_VStr.
  - intros d H. unfold _get_field_type, dict_get_default.
    now rewrite H, py_str_VStr.
  - intros d H. unfold _get_field_type, dict_get_default.
    now rewrite H, py_str_VStr.
  - intros d H. unfold _get_field_type, field_type_codes, type_mapping in *.
    cbn [assoc_get In] in *.
    case_string_eqb; auto; exfalso; apply H; auto 6.
  - intros d H. unfold _get_field_type, dict_get_default.
    now rewrite H, py_str_VStr.
  - intros field_info H. destruct field_info; auto.
    now destruct (H d).
Qed.

Lemma get_field_type_total_witness :
  (forall s, str_of_text (VStr s) = s) /\
  _get_field_type str_of_text (VDict [("/T", VStr "sign"); ("/FT", VStr "/Sig")])
  = "signature" /\
  _get_field_type str_of_text (VDict [("/FT", VStr "/XObject")]) = "text".
Proof.
  split; [reflexivity|].
  destruct (get_field_type_total str_of_text (fun s => eq_refl))
    as (_ & _ & _ & _ & Hsig & Hother & _).
  split.
  - apply Hsig. reflexivity.
  - apply Hother. simpl. intuition discriminate.
Defined.

(** ** Labels *)

(** C7: when the label request fails, by a request error or by a reply that
    does not decode, the result for the field name [name] is the templated
    label and explanation over the lowercased name. *)
Theorem generate_label_fallback (llm : nat -> result string)
    (json_loads : string -> option value) (name : string) (n : nat) :
  label_request_fails llm json_loads n ->
  _generate_label_and_explanation llm json_loads (VStr name) n
  = (Ok (templated_label name), S n).
Proof.
  unfold label_request_fails, _generate_label_and_explanation, try_except,
    bind, messages_create, lift, ret.
  destruct (llm n) as [response|e]; auto.
  intros ->. reflexivity.
Qed.

Lemma generate_label_fallback_witness :
  label_request_fails (fun _ => Raise (RequestError "timeout")) (fun _ => None) O
  /\ _generate_label_and_explanation
       (fun _ => Raise (RequestError "timeout")) (fun _ => None) (VStr "DOB") O
     = (Ok (VDict [("label", VStr "What is your dob?");
                   ("explanation", VStr "Enter your dob")]), 1%nat).
Proof.
  split; [exact I|].
  apply (generate_label_fallback
           (fun _ => Raise (RequestError "timeout")) (fun _ => None) "DOB" O).
  exact I.
Defined.

(** ** Results and loops *)

Lemma rmap_total {A B} (f : A -> result B) l :
  (forall x, In x l -> exists y, f x = Ok y) -> exists ys, rmap f l = Ok ys.
Proof.
  induction l as [|x l IH]; simpl; intros H; eauto.
  destruct (H x) as [y Hy]; auto. rewrite Hy. simpl.
  destruct IH as [ys Hys]; auto. rewrite Hys. simpl. eauto.
Qed.

Lemma In_enumerate {A} (l : list A) i x :
  In (i, x) (enumerate l) -> In x l.
Proof. unfold enumerate. apply in_combine_r. Qed.

Lemma NoDup_map_inj {A B} (f : A -> B) l :
  (forall a b, f a = f b -> a = b) -> NoDup l -> NoDup (map f l).
Proof.
  intros Hinj. induction 1 as [|x l Hx Hl IH]; simpl; constructor; auto.
  intros Hin. apply in_map_iff in Hin as (y & Hy & Hin).
  apply Hinj in Hy. now subst.
Qed.

(** ** Indexing *)

Lemma list_index_ok {A} (l : list A) i :
  - Z.of_nat (List.length l) <= i < Z.of_nat (List.length l) ->
  exists x, list_index l i = Ok x /\ nth_error l (position l i) = Some x.
Proof.
  intros Hi. unfold list_index, position.
  set (n := Z.of_nat (List.length l)) in *.
  set (j := if i <? 0 then i + n else i).
  assert (Hj : 0 <= j < n) by (subst j; destruct (Z.ltb_spec i 0); lia).
  destruct (Z.ltb_spec j 0); [lia|]. destruct (Z.leb_spec n j); [lia|]. simpl.
  destruct (nth_error l (Z.to_nat j)) eqn:E; eauto.
  apply nth_error_None in E. lia.
Qed.

Lemma list_index_out {A} (l : list A) i :
  i < - Z.of_nat (List.length l) \/ Z.of_nat (List.length l) <= i ->
  list_index l i = Raise IndexError.
Proof.
  intros Hi. unfold list_index.
  set (n := Z.of_nat (List.length l)) in *.
  destruct (Z.ltb_spec i 0).
  - destruct (Z.ltb_spec (i + n) 0); simpl; auto.
    destruct (Z.leb_spec n (i + n)); auto; lia.
  - destruct (Z.ltb_spec i 0); [lia|]. simpl.
    destruct (Z.leb_spec n i); auto; lia.
Qed.

Lemma list_index_middle {A} (pre : list A) x rest :
  list_index (pre ++ x :: rest) (Z.of_nat (List.length pre)) = Ok x.
Proof.
  destruct (@list_index_ok A (pre ++ x :: rest) (Z.of_nat (List.length pre)))
    as (y & Hy & Hn).
  - rewrite length_app. simpl. lia.
  - rewrite Hy. f_equal. unfold position in Hn.
    destruct (Z.ltb_spec (Z.of_nat (List.length pre)) 0); [lia|].
    rewrite Nat2Z.id, nth_error_app2, Nat.sub_diag in Hn by lia.
    simpl in Hn. congruence.
Qed.

(** ** Grouping *)

Section GroupingFacts.
Variable llm : nat -> result string.
Variable json_loads : string -> option value.

Lemma group_summary_ok fields :
  Forall (has_key "field_name") fields ->
  exists summary, group_summary fields = Ok summary.
Proof.
  intros Hf. apply rmap_total. intros [idx field] Hin.
  apply In_enumerate in Hin. rewrite Forall_forall in Hf.
  specialize (Hf _ Hin). unfold has_key, dict_getitem in *.
  destruct (dict_get "field_name" field); [|congruence]. simpl. eauto.
Qed.

(** The fallback groups, taken from position [length pre] on, tag the
    fields from that position on, each with its own position. *)
Lemma tag_singletons rest : forall pre acc,
  rfold (tag_group (pre ++ rest))
        (combine (seq (List.length pre) (List.length rest))
                 (map (fun idx =>
                         VDict [("group_name",
                                 VStr (String.append "group_" (str_of_nat idx)));
                                ("field_indices", VList [VInt (Z.of_nat idx)]);
                                ("description", VStr "")])
                      (seq (List.length pre) (List.length rest))))
        acc
  = Ok (acc ++ map (fun p => tagged (fst p) (snd p))
                   (combine (seq (List.length pre) (List.length rest)) rest)).
Proof.
  induction rest as [|f rest IH]; intros pre acc; simpl.
  - now rewrite app_nil_r.
  - unfold tag_field. cbn [as_int].
    replace (Z.of_nat (List.length pre)
             <? Z.of_nat (List.length (pre ++ f :: rest))) with true.
    2:{ symmetry. apply Z.ltb_lt. rewrite length_app. simpl. lia. }
    rewrite list_index_middle. simpl.
    specialize (IH (pre ++ [f]) (acc ++ [tagged (List.length pre) f])).
    rewrite <- app_assoc in IH. simpl in IH.
    rewrite length_app in IH. simpl in IH.
    rewrite Nat.add_1_r in IH. unfold tagged in *. rewrite IH.
    now rewrite <- app_assoc.
Qed.

Lemma tag_groups_singletons fields :
  tag_groups fields (singleton_groups (List.length fields))
  = Ok (map (fun p => tagged (fst p) (snd p)) (enumerate fields)).
Proof.
  unfold tag_groups, singleton_groups, enumerate. simpl.
  rewrite length_map, length_seq.
  exact (tag_singletons fields [] []).
Qed.

Lemma nth_error_enumerate {A} (l : list A) i x :
  nth_error l i = Some x -> nth_error (enumerate l) i = Some (i, x).
Proof.
  unfold enumerate. intros H.
  enough (G : forall k, nth_error (combine (seq k (List.length l)) l) i
                        = Some ((k + i)%nat, x)) by apply (G O).
  revert i H.
  induction l as [|y l IH]; intros [|i] H k; simpl in *; try discriminate.
  - injection H as ->. now rewrite Nat.add_0_r.
  - rewrite (IH _ H (S k)). f_equal. f_equal. lia.
Qed.

(** C6: when the grouping reply does not decode, the stage returns the
    fields themselves, in input order, the one at position [i] tagged with
    group [i]: as many records as fields, and no two with the same
    [_group_id]. *)
Theorem group_fields_fallback fields n response :
  Forall (has_key "field_name") fields ->
  llm n = Ok response ->
  parse_response json_loads response = None ->
  exists out,
    fst (_group_fields llm json_loads fields n) = Ok out /\
    List.length out = List.length fields /\
    (forall i f, nth_error fields i = Some f ->
                 nth_error out i = Some (tagged i f) /\
                 dict_get "_group_id" (tagged i f) = Some (VInt (Z.of_nat i))) /\
    NoDup (map (dict_get "_group_id") out).
Proof.
  intros Hf Hllm Hparse.
  exists (map (fun p => tagged (fst p) (snd p)) (enumerate fields)).
  split; [|split; [|split]].
  - unfold _group_fields. destruct fields as [|f0 fields']; [reflexivity|].
    destruct (group_summary_ok Hf) as [summary Hs].
    unfold bind, lift, messages_create. rewrite Hs, Hllm, Hparse.
    simpl fst. apply tag_groups_singletons.
  - unfold enumerate. rewrite length_map, length_combine, length_seq. lia.
  - intros i f Hi. split.
    + rewrite nth_error_map, (nth_error_enumerate _ _ Hi). reflexivity.
    + apply dict_get_set_same.
  - rewrite map_map. unfold enumerate.
    rewrite (map_ext_in _ (fun p => Some (VInt (Z.of_nat (fst p))))).
    2:{ intros [i f] _. apply dict_get_set_same. }
    rewrite <- (map_map fst (fun i => Some (VInt (Z.of_nat i)))).
    apply NoDup_map_inj.
    + intros a b [= H]. lia.
    + generalize O. induction fields as [|f fields IH]; intros k; simpl.
      * constructor.
      * constructor.
        -- intros Hin. apply in_map_iff in Hin as ([j g] & Hj & Hin).
           simpl in Hj. subst j. apply in_combine_l in Hin.
           apply in_seq in Hin. lia.
        -- apply IH. now inversion Hf.
Qed.

End GroupingFacts.

Lemma group_fields_fallback_witness :
  Forall (has_key "field_name") [name_a; full_name_b] /\
  prose_llm O = Ok "Sorry, I cannot produce that." /\
  parse_response reject_json "Sorry, I cannot produce that." = None /\
  exists out,
    fst (_group_fields prose_llm reject_json [name_a; full_name_b] O) = Ok out /\
    List.length out = 2%nat /\
    (forall i f, nth_error [name_a; full_name_b] i = Some f ->
                 nth_error out i = Some (tagged i f) /\
                 dict_get "_group_id" (tagged i f) = Some (VInt (Z.of_nat i))) /\
    NoDup (map (dict_get "_group_id") out).
Proof.
  assert (H : Forall (has_key "field_name") [name_a; full_name_b])
    by (repeat constructor; discriminate).
  repeat split; auto.
  exact (@group_fields_fallback prose_llm reject_json [name_a; full_name_b] O
           "Sorry, I cannot produce that." H eq_refl eq_refl).
Defined.

(** ** Loops that make requests *)

Lemma mfold_app {A S} (f : S -> A -> M S) l1 l2 s n :
  mfold f (l1 ++ l2) s n = bind (mfold f l1 s) (mfold f l2) n.
Proof.
  revert s n. induction l1 as [|x l1 IH]; intros s n; simpl.
  - reflexivity.
  - unfold bind in *. destruct (f s x n) as [[s'|e] n']; auto.
Qed.

Lemma mfold_ext_in {A S} (f g : S -> A -> M S) l s n :
  (forall s x n, In x l -> f s x n = g s x n) ->
  mfold f l s n = mfold g l s n.
Proof.
  revert s n. induction l as [|x l IH]; intros s n H; simpl; auto.
  unfold bind. rewrite H by (simpl; auto).
  destruct (g s x n) as [[s'|e] n']; auto.
  apply IH. intros. apply H. simpl; auto.
Qed.

Lemma mfold_map {A B S} (f : S -> B -> M S) (h : A -> B) l s n :
  mfold f (map h l) s n = mfold (fun s x => f s (h x)) l s n.
Proof.
  revert s n. induction l as [|x l IH]; intros s n; simpl; auto.
  unfold bind. destruct (f s (h x) n) as [[s'|e] n']; auto.
Qed.

(** ** Batches *)

Lemma batch_starts_multiple k s :
  (0 < s)%nat -> batch_starts (k * s) s = map (fun j => (j * s)%nat) (seq 0 k).
Proof.
  intros Hs. unfold batch_starts.
  replace ((k * s + s - 1) / s)%nat with k; auto.
  replace (k * s + s - 1)%nat with (k * s + (s - 1))%nat by lia.
  rewrite Nat.div_add_l by lia. rewrite Nat.div_small; lia.
Qed.

Lemma seq_offset k c : seq k c = map (fun j => (k + j)%nat) (seq 0 c).
Proof.
  revert k. induction c as [|c IH]; intros k; simpl; auto.
  f_equal; [lia|]. rewrite (IH (S k)), (IH 1%nat), map_map.
  apply map_ext. intros; lia.
Qed.

Lemma batch_starts_app k m s :
  (0 < s)%nat ->
  batch_starts (k * s + m) s
  = batch_starts (k * s) s ++ map (fun i => (k * s + i)%nat) (batch_starts m s).
Proof.
  intros Hs. rewrite batch_starts_multiple by auto. unfold batch_starts.
  replace (k * s + m + s - 1)%nat with (k * s + (m + s - 1))%nat by lia.
  rewrite Nat.div_add_l by lia. rewrite seq_app, map_app. f_equal.
  simpl. rewrite (seq_offset k), !map_map. apply map_ext. intros; lia.
Qed.

Lemma slice_pre {A} (pre post : list A) i size :
  (i + Z.to_nat size <= List.length pre)%nat ->
  slice i size (pre ++ post) = slice i size pre.
Proof.
  intros H. unfold slice. rewrite skipn_app, firstn_app, length_skipn.
  replace (Z.to_nat size - (List.length pre - i))%nat with O by lia.
  simpl. apply app_nil_r.
Qed.

Lemma slice_post {A} (pre post : list A) i size :
  slice (List.length pre + i) size (pre ++ post) = slice i size post.
Proof.
  unfold slice. rewrite skipn_app, skipn_all2 by lia. simpl.
  f_equal. f_equal. lia.
Qed.

Lemma slice_all {A} (l : list A) size :
  (List.length l <= Z.to_nat size)%nat -> slice 0 size l = l.
Proof. intros H. unfold slice. simpl. now apply firstn_all2. Qed.

(** ** Deduplication *)

Section DeduplicationFacts.
Variable llm : nat -> result string.
Variable json_loads : string -> option value.
Variable list_of_set : list value -> list value.

Local Abbreviation dedup_batch := (_deduplicate_batch llm json_loads list_of_set).
Local Abbreviation dedup_fields := (_deduplicate_fields llm json_loads list_of_set).
Local Abbreviation turn := (deduplicate_turn llm json_loads list_of_set).

Lemma dedup_summary_ok fields :
  Forall field_record fields -> exists summary, dedup_summary fields = Ok summary.
Proof.
  intros Hf. apply rmap_total. intros [idx field] Hin.
  apply In_enumerate in Hin. rewrite Forall_forall in Hf.
  destruct (Hf _ Hin) as [Hname [source Hsource]].
  unfold has_key, dict_getitem in *. rewrite Hsource.
  destruct (dict_get "field_name" field); [|congruence]. simpl. eauto.
Qed.

(** The accumulator of the batch loop only ever grows at its end. *)
Lemma turn_acc fields size starts : forall acc n,
  mfold (turn fields size) starts acc n
  = bind (mfold (turn fields size) starts [])
         (fun r => ret (acc ++ r)) n.
Proof.
  induction starts as [|i starts IH]; intros acc n; simpl.
  - unfold bind, ret. now rewrite app_nil_r.
  - unfold bind at 1 2 3. unfold deduplicate_turn at 1 3. unfold bind at 1 2.
    destruct (dedup_batch (slice i size fields) n) as [[d|e] n1]; auto.
    unfold ret at 1 2. simpl app.
    rewrite (IH (acc ++ d)), (IH d). unfold bind, ret.
    destruct (mfold (turn fields size) starts [] n1) as [[r|e] n2]; auto.
    now rewrite app_assoc.
Qed.

Lemma dedup_fields_loop fields size n :
  0 < size ->
  dedup_fields fields size n
  = mfold (turn fields size)
          (batch_starts (List.length fields) (Z.to_nat size)) [] n.
Proof.
  intros Hs. unfold _deduplicate_fields. destruct fields as [|f fields].
  - unfold batch_starts. simpl List.length.
    rewrite Nat.div_small by lia. reflexivity.
  - unfold bind, lift, range_step.
    destruct (Z.eqb_spec size 0); [lia|]. destruct (Z.ltb_spec size 0); [lia|].
    reflexivity.
Qed.

(** Batches are independent: the fields after a whole number of batches are
    deduplicated as if they were given alone, and the results concatenated. *)
Lemma dedup_fields_app pre post size k n :
  0 < size -> List.length pre = (k * Z.to_nat size)%nat ->
  dedup_fields (pre ++ post) size n
  = bind (dedup_fields pre size)
         (fun p => bind (dedup_fields post size) (fun r => ret (p ++ r))) n.
Proof.
  intros Hs Hk. assert (Hs' : (0 < Z.to_nat size)%nat) by lia.
  unfold bind. rewrite !dedup_fields_loop by auto.
  rewrite length_app, Hk, batch_starts_app, mfold_app by auto.
  unfold bind.
  rewrite (mfold_ext_in (turn (pre ++ post) size) (turn pre size)).
  2:{ intros s x m Hin. unfold deduplicate_turn.
      rewrite slice_pre; auto.
      rewrite batch_starts_multiple in Hin by auto.
      apply in_map_iff in Hin as (j & <- & Hj). apply in_seq in Hj. nia. }
  destruct (mfold (turn pre size) (batch_starts (k * Z.to_nat size) (Z.to_nat size))
              [] n) as [[p|e] n1]; auto.
  rewrite mfold_map.
  rewrite (mfold_ext_in _ (turn post size)).
  2:{ intros s x m _. unfold deduplicate_turn.
      now rewrite <- Hk, slice_post. }
  rewrite turn_acc. unfold bind.
  rewrite dedup_fields_loop by auto. reflexivity.
Qed.

Lemma dedup_fields_single chunk size n :
  (0 < List.length chunk <= Z.to_nat size)%nat ->
  dedup_fields chunk size n = dedup_batch chunk n.
Proof.
  intros H. rewrite dedup_fields_loop by lia. unfold batch_starts.
  replace ((List.length chunk + Z.to_nat size - 1) / Z.to_nat size)%nat
    with 1%nat.
  2:{ apply Nat.div_unique with (r := (List.length chunk - 1)%nat); lia. }
  simpl. unfold bind, deduplicate_turn, bind, ret.
  rewrite slice_all by lia.
  destruct (dedup_batch chunk n) as [[d|e] n1]; auto.
Qed.

Lemma dedup_batch_fallback batch n response :
  Forall field_record batch ->
  llm n = Ok response ->
  parse_response json_loads response = None ->
  dedup_batch batch n = (Ok batch, S n).
Proof.
  intros Hf Hllm Hparse. unfold _deduplicate_batch.
  destruct (dedup_summary_ok Hf) as [summary Hs].
  unfold bind, lift, messages_create, ret. now rewrite Hs, Hllm, Hparse.
Qed.

(** C5: when the reply for a batch does not decode, [_deduplicate_batch]
    returns the batch as it is; and inside [_deduplicate_fields] this touches
    that batch only: the batches before it keep their result [p], and the
    batches after it are deduplicated as usual. *)
Theorem deduplicate_fallback_per_batch size k pre chunk rest n p n1 response :
  0 < size ->
  List.length pre = (k * Z.to_nat size)%nat ->
  (0 < List.length chunk <= Z.to_nat size)%nat ->
  (rest <> [] -> List.length chunk = Z.to_nat size) ->
  Forall field_record chunk ->
  dedup_fields pre size n = (Ok p, n1) ->
  llm n1 = Ok response ->
  parse_response json_loads response = None ->
  dedup_batch chunk n1 = (Ok chunk, S n1) /\
  dedup_fields (pre ++ chunk ++ rest) size n
  = match dedup_fields rest size (S n1) with
    | (Ok r, n2) => (Ok (p ++ chunk ++ r), n2)
    | (Raise e, n2) => (Raise e, n2)
    end.
Proof.
  intros Hs Hk Hc Hrest Hf Hpre Hllm Hparse.
  pose proof (dedup_batch_fallback Hf Hllm Hparse) as Hb.
  split; auto.
  rewrite (dedup_fields_app pre (chunk ++ rest) k n Hs Hk).
  unfold bind at 1. rewrite Hpre.
  destruct rest as [|f rest].
  - rewrite app_nil_r. unfold bind, ret.
    rewrite dedup_fields_single, Hb by auto. simpl.
    now rewrite app_nil_r.
  - assert (Hlen : List.length chunk = (1 * Z.to_nat size)%nat)
      by (rewrite Hrest; [lia | discriminate]).
    unfold bind at 1.
    rewrite (dedup_fields_app chunk (f :: rest) 1 n1 Hs Hlen).
    unfold bind, ret. rewrite dedup_fields_single, Hb by auto.
    destruct (dedup_fields (f :: rest) size (S n1)) as [[r|e] n2]; auto.
Qed.

End DeduplicationFacts.

Lemma deduplicate_fallback_per_batch_witness :
  _deduplicate_batch prose_then_rename rename_json insertion_order [name_a] O
  = (Ok [name_a], 1%nat) /\
  _deduplicate_fields prose_then_rename rename_json insertion_order
    ([] ++ [name_a] ++ [full_name_b]) 1 O
  = (Ok [name_a;
         [("field_name", VStr "Applicant Name"); ("source_pdf", VStr "b.pdf");
          ("sources", VList [VStr "b.pdf"])]], 2%nat).
Proof.
  assert (Hf : Forall field_record [name_a]).
  { repeat constructor; [discriminate | now exists "a.pdf"]. }
  assert (Hlen : (0 < List.length [name_a] <= Z.to_nat 1)%nat)
    by (simpl; lia).
  exact (@deduplicate_fallback_per_batch prose_then_rename rename_json
           insertion_order 1 O [] [name_a] [full_name_b] O [] O
           "Sorry, I cannot produce that."
           eq_refl eq_refl Hlen (fun _ => eq_refl) Hf eq_refl eq_refl eq_refl).
Defined.

(** ** Sets of sources *)

Lemma key_eqb_text s v : key_eqb (VStr s) v = true <-> v = VStr s.
Proof.
  destruct v; simpl; split; try discriminate.
  - rewrite String.eqb_eq. congruence.
  - intros [= ->]. apply String.eqb_refl.
Qed.

Lemma existsb_key_text s seen :
  existsb (key_eqb (VStr s)) seen = true <-> In (VStr s) seen.
Proof.
  rewrite existsb_exists. split.
  - intros (v & Hin & Hv). apply key_eqb_text in Hv. now subst.
  - intros Hin. exists (VStr s). split; auto. now apply key_eqb_text.
Qed.

Lemma dedup_text xs : forall seen,
  Forall (fun v => exists s, v = VStr s) xs ->
  NoDup (dedup seen xs) /\
  forall v, In v (dedup seen xs) <-> In v xs /\ ~ In v seen.
Proof.
  induction xs as [|x xs IH]; intros seen Hxs; simpl.
  - split; [constructor | tauto].
  - inversion Hxs as [|? ? [s ->] Hxs']; subst.
    destruct (existsb (key_eqb (VStr s)) seen) eqn:E.
    + apply existsb_key_text in E.
      destruct (IH seen Hxs') as [Hnd Hin]. split; auto.
      intros v. rewrite Hin. split; [tauto|].
      intros [[<-|Hv] Hs]; tauto.
    + assert (Hs : ~ In (VStr s) seen).
      { rewrite <- existsb_key_text, E. discriminate. }
      destruct (IH (VStr s :: seen) Hxs') as [Hnd Hin]. split.
      * constructor; auto. rewrite Hin. simpl. tauto.
      * intros v. simpl. rewrite Hin. simpl. split.
        -- intros [<-|[Hv Hn]]; tauto.
        -- intros [[<-|Hv] Hn]; auto.
           assert (Hd : VStr s = v \/ VStr s <> v).
           { destruct v; try (right; discriminate).
             destruct (string_dec s s0); [left | right]; congruence. }
           destruct Hd; [auto | right; tauto].
Qed.

Lemma set_of_text xs :
  Forall (fun v => exists s, v = VStr s) xs ->
  exists set, set_of xs = Ok set /\ NoDup set /\ forall v, In v set <-> In v xs.
Proof.
  intros Hxs. unfold set_of.
  replace (forallb hashable xs) with true.
  - destruct (dedup_text [] Hxs) as [Hnd Hin].
    exists (dedup [] xs). repeat split; auto.
    + intros H. now apply Hin.
    + intros H. apply Hin. auto.
  - symmetry. apply forallb_forall. intros v Hv.
    rewrite Forall_forall in Hxs. destruct (Hxs v Hv) as [s ->]. reflexivity.
Qed.

(** ** Merging *)

Section MergeFacts.
Variable llm : nat -> result string.
Variable json_loads : string -> option value.
Variable list_of_set : list value -> list value.
Hypothesis list_of_set_perm : forall xs, Permutation (list_of_set xs) xs.

Lemma list_getitem_in_range fields i :
  in_range fields i ->
  exists f, list_getitem fields (VInt i) = Ok f /\ record_at fields i = Some f.
Proof. intros H. unfold list_getitem, record_at. simpl. now apply list_index_ok. Qed.

Lemma record_at_In fields i f : record_at fields i = Some f -> In f fields.
Proof. unfold record_at. apply nth_error_In. Qed.

(** The sources collected for a list of indices in range. *)
Lemma sources_of_indices fields indices :
  Forall field_record fields ->
  (forall i, In i indices -> in_range fields i) ->
  exists sources,
    rmap (fun idx => rbind (list_getitem fields idx)
                           (fun field => dict_getitem "source_pdf" field))
         (map VInt indices) = Ok sources /\
    Forall (fun v => exists s, v = VStr s) sources /\
    forall s, In s sources <->
              exists i f, In i indices /\ record_at fields i = Some f /\
                          dict_get "source_pdf" f = Some s.
Proof.
  intros Hf. induction indices as [|i indices IH]; intros Hr; simpl.
  - exists []. repeat split; auto. intros []. intros (i & f & [] & _).
  - destruct (@list_getitem_in_range fields i) as (f & Hget & Hrec);
      [apply Hr; simpl; auto|].
    rewrite Forall_forall in Hf.
    destruct (Hf f (record_at_In _ _ Hrec)) as [_ [source Hsource]].
    rewrite Hget. simpl. unfold dict_getitem at 1. rewrite Hsource. simpl.
    destruct IH as (sources & -> & Htext & Hin); [intros; apply Hr; simpl; auto|].
    simpl. exists (VStr source :: sources). repeat split; eauto.
    + intros [<-|Hs].
      * exists i, f. simpl. auto.
      * apply Hin in Hs as (j & g & Hj & Hg). exists j, g. simpl. tauto.
    + intros (j & g & [<-|Hj] & Hg & Hs).
      * left. congruence.
      * right. apply Hin. eauto.
Qed.

(** One group: nothing for an empty index list, one merged record otherwise. *)
Lemma merge_group_step fields acc g t :
  Forall field_record fields ->
  decodes_to g t ->
  (forall i, In i (snd t) -> in_range fields i) ->
  if listed t
  then exists m, merge_group list_of_set fields acc g = Ok (acc ++ [m]) /\
                 is_merge fields t m
  else merge_group list_of_set fields acc g = Ok acc.
Proof.
  intros Hf (d & -> & Hname & Hidx) Hr. destruct t as [c indices]. simpl in *.
  unfold merge_group, listed. simpl.
  destruct indices as [|i0 others]; simpl in *;
    unfold dict_getitem at 1; rewrite Hidx; simpl; auto.
  change (list_getitem (VInt i0 :: map VInt others) (VInt 0))
    with (Ok (A := value) (VInt i0)). simpl.
  destruct (@sources_of_indices fields (i0 :: others) Hf Hr)
    as (sources & Hsrc & Htext & Hin).
  destruct (@list_getitem_in_range fields i0) as (base & Hget & Hrec);
    [apply Hr; simpl; auto|].
  simpl in Hsrc. rewrite Hget in Hsrc. simpl in Hsrc.
  rewrite Hget. simpl. unfold dict_getitem at 1. rewrite Hname. simpl.
  destruct (set_of_text Htext) as (set & Hsetof & Hnd & Hset).
  exists (dict_set "sources" (VList (list_of_set set))
            (dict_set "field_name" c base)).
  split; [rewrite Hsrc; simpl; rewrite Hsetof; reflexivity|].
  exists i0, others, base. simpl. repeat split; auto.
  - rewrite dict_get_set_other by discriminate. apply dict_get_set_same.
  - intros k H1 H2. now rewrite !dict_get_set_other by congruence.
  - exists (list_of_set set). split; [apply dict_get_set_same|]. split.
    + eapply Permutation_NoDup; [symmetry; apply list_of_set_perm | auto].
    + intros s. rewrite <- Hin, <- Hset. split; apply Permutation_in; auto.
      symmetry; auto.
Qed.

Lemma merge_groups_fold fields groups : forall typed acc,
  Forall field_record fields ->
  Forall2 decodes_to groups typed ->
  (forall t i, In t typed -> In i (snd t) -> in_range fields i) ->
  exists out,
    rfold (merge_group list_of_set fields) groups acc = Ok (acc ++ out) /\
    Forall2 (is_merge fields) (filter listed typed) out.
Proof.
  induction groups as [|g groups IH]; intros typed acc Hf H2 Hr;
    inversion H2 as [|? t ? typed' Hg H2']; subst; simpl.
  - exists []. now rewrite app_nil_r.
  - pose proof (@merge_group_step fields acc g t Hf Hg
                  (fun i => Hr t i (or_introl eq_refl))) as Hstep.
    destruct (listed t).
    + destruct Hstep as (m & -> & Hm). simpl.
      destruct (IH typed' (acc ++ [m]) Hf H2') as (out & -> & Hout).
      { intros; eapply Hr; simpl; eauto. }
      exists (m :: out). rewrite <- app_assoc. split; auto.
    + rewrite Hstep. simpl. apply IH; auto.
      intros; eapply Hr; simpl; eauto.
Qed.

(** C1, amended: for a batch of field records and a decoded reply whose
    groups list only indices in range, [_deduplicate_batch] returns exactly
    one record per group with a non-empty index list, in the order of the
    groups: the record at the group's first listed index with [field_name]
    set to the canonical name, the distinct [source_pdf] values of the listed
    records stored under [sources], and every other entry, [source_pdf]
    included, left as in that record. *)
Theorem deduplicate_batch_merges fields groups typed n response :
  Forall field_record fields ->
  llm n = Ok response ->
  parse_response json_loads response = Some (VList groups) ->
  Forall2 decodes_to groups typed ->
  (forall t i, In t typed -> In i (snd t) -> in_range fields i) ->
  exists out,
    _deduplicate_batch llm json_loads list_of_set fields n = (Ok out, S n) /\
    Forall2 (is_merge fields) (filter listed typed) out.
Proof.
  intros Hf Hllm Hparse H2 Hr. unfold _deduplicate_batch.
  destruct (dedup_summary_ok Hf) as [summary Hs].
  unfold bind, lift, messages_create. rewrite Hs, Hllm, Hparse.
  unfold merge_groups. simpl.
  destruct (@merge_groups_fold fields groups typed [] Hf H2 Hr) as (out & -> & Hout).
  eauto.
Qed.

End MergeFacts.

Lemma deduplicate_batch_merges_witness :
  exists out,
    _deduplicate_batch merge_llm merge_json insertion_order
      [name_a; full_name_b] O = (Ok out, 1%nat) /\
    Forall2 (is_merge [name_a; full_name_b])
            (filter listed [(VStr "Full Name", [0; 1])]) out.
Proof.
  apply (@deduplicate_batch_merges merge_llm merge_json insertion_order
           (fun xs => Permutation_refl xs)
           [name_a; full_name_b]
           [VDict [("canonical_name", VStr "Full Name");
                   ("field_indices", VList [VInt 0; VInt 1])]]
           [(VStr "Full Name", [0; 1])] O (group_text "Full Name" "0, 1")).
  - repeat constructor; try discriminate; [now exists "a.pdf" | now exists "b.pdf"].
  - reflexivity.
  - reflexivity.
  - repeat constructor. eexists. repeat split; reflexivity.
  - intros t i [<-|[]] [<-|[<-|[]]]; unfold in_range; simpl; lia.
Defined.

(** C1 as stated fails on the end-to-end scenario: the merged record keeps
    the [source_pdf] of its base record, the string ["a.pdf"], and the set of
    both sources is stored under [sources]. *)
Lemma merged_source_pdf_is_not_the_set :
  exists m,
    _deduplicate_batch merge_llm merge_json insertion_order
      [name_a; full_name_b] O = (Ok [m], 1%nat) /\
    dict_get "field_name" m = Some (VStr "Full Name") /\
    dict_get "source_pdf" m = Some (VStr "a.pdf") /\
    dict_get "sources" m = Some (VList [VStr "a.pdf"; VStr "b.pdf"]) /\
    ~ source_pdf_is_set m [VStr "a.pdf"; VStr "b.pdf"].
Proof.
  eexists. split; [reflexivity|]. repeat split.
  intros (l & Hl & _). discriminate Hl.
Qed.

(** ** Indices out of range *)

Section IndexErrors.
Variable llm : nat -> result string.
Variable json_loads : string -> option value.
Variable list_of_set : list value -> list value.

(** C10: a reply that decodes can still make deduplication raise.  When the
    first group of the decoded reply lists first an index outside the batch,
    [_deduplicate_batch] raises [IndexError] instead of returning the batch;
    for a batch that is the whole input, so do [_deduplicate_fields] and
    [process_fields]. *)
Theorem deduplicate_batch_index_error fields d groups i others n response size :
  Forall field_record fields ->
  llm n = Ok response ->
  parse_response json_loads response = Some (VList (VDict d :: groups)) ->
  dict_get "field_indices" d = Some (VList (VInt i :: others)) ->
  ~ in_range fields i ->
  _deduplicate_batch llm json_loads list_of_set fields n
  = (Raise IndexError, S n) /\
  ((0 < List.length fields <= Z.to_nat size)%nat ->
   _deduplicate_fields llm json_loads list_of_set fields size n
   = (Raise IndexError, S n) /\
   process_fields llm json_loads list_of_set fields size n
   = (Raise IndexError, S n)).
Proof.
  intros Hf Hllm Hparse Hidx Hout.
  assert (Hb : _deduplicate_batch llm json_loads list_of_set fields n
               = (Raise IndexError, S n)).
  { unfold _deduplicate_batch.
    destruct (dedup_summary_ok Hf) as [summary Hs].
    unfold bind, lift, messages_create. rewrite Hs, Hllm, Hparse.
    unfold merge_groups, merge_group. simpl.
    unfold dict_getitem at 1. rewrite Hidx. simpl.
    change (list_getitem (VInt i :: others) (VInt 0))
      with (Ok (A := value) (VInt i)). simpl.
    unfold list_getitem. simpl. rewrite list_index_out; auto.
    unfold in_range in Hout. lia. }
  split; auto. intros Hlen.
  assert (Hd : _deduplicate_fields llm json_loads list_of_set fields size n
               = (Raise IndexError, S n)).
  { rewrite dedup_fields_single by auto. exact Hb. }
  split; auto. unfold process_fields, bind. now rewrite Hd.
Qed.

End IndexErrors.

Lemma deduplicate_batch_index_error_witness :
  _deduplicate_batch stray_llm stray_json insertion_order [name_a] O
  = (Raise IndexError, 1%nat) /\
  ((0 < List.length [name_a] <= Z.to_nat 50)%nat ->
   _deduplicate_fields stray_llm stray_json insertion_order [name_a] 50 O
   = (Raise IndexError, 1%nat) /\
   process_fields stray_llm stray_json insertion_order [name_a] 50 O
   = (Raise IndexError, 1%nat)).
Proof.
  apply (@deduplicate_batch_index_error stray_llm stray_json insertion_order
           [name_a]
           [("canonical_name", VStr "Name"); ("field_indices", VList [VInt 5])]
           [] 5 [] O (group_text "Name" "5") 50).
  - repeat constructor; [discriminate | now exists "a.pdf"].
  - reflexivity.
  - reflexivity.
  - reflexivity.
  - unfold in_range. simpl. lia.
Defined.

(** ** Grouping by a decoded reply *)

Section GroupingByReply.
Variable llm : nat -> result string.
Variable json_loads : string -> option value.

Lemma grouped_records_nil groups : grouped_records [] groups = [].
Proof.
  unfold grouped_records. induction groups as [|[group_id indices] groups IH];
    simpl; auto.
  rewrite IH, app_nil_r. induction indices as [|i indices IHi]; simpl; auto.
  rewrite IHi, app_nil_r. unfold grouped_record, record_at. simpl.
  destruct (i <? 0); auto. now destruct (position [] i).
Qed.

Lemma tag_indices fields group_id indices : forall acc,
  (forall i, In i indices -> - Z.of_nat (List.length fields) <= i) ->
  rfold (tag_field fields group_id) (map VInt indices) acc
  = Ok (acc ++ flat_map (grouped_record fields group_id) indices).
Proof.
  induction indices as [|i indices IH]; intros acc Hlow; simpl.
  - now rewrite app_nil_r.
  - unfold tag_field at 1, grouped_record at 1. simpl.
    destruct (Z.ltb_spec i (Z.of_nat (List.length fields))).
    + destruct (@list_index_ok _ fields i) as (f & Hf & Hn).
      { split; auto. apply Hlow. simpl; auto. }
      unfold record_at. rewrite Hf, Hn. simpl.
      rewrite IH by (intros; apply Hlow; simpl; auto).
      now rewrite <- app_assoc.
    + simpl. apply IH. intros; apply Hlow; simpl; auto.
Qed.

Lemma tag_groups_fold fields groups : forall typed k acc,
  Forall2 group_decodes groups typed ->
  (forall indices i, In indices typed -> In i indices ->
                     - Z.of_nat (List.length fields) <= i) ->
  rfold (tag_group fields) (combine (seq k (List.length groups)) groups) acc
  = Ok (acc ++ grouped_records fields
                 (combine (seq k (List.length typed)) typed)).
Proof.
  induction groups as [|g groups IH]; intros typed k acc H2 Hlow;
    inversion H2 as [|? indices ? typed' (d & -> & Hd) H2']; subst; simpl.
  - now rewrite app_nil_r.
  - unfold dict_getitem. rewrite Hd. simpl.
    rewrite tag_indices by (intros; eapply Hlow; simpl; eauto). simpl.
    rewrite (IH typed' (S k)); auto.
    + now rewrite <- app_assoc.
    + intros; eapply Hlow; simpl; eauto.
Qed.

(** C9, amended: for a decoded grouping reply whose listed indices are all
    at least [-N], [N] the number of fields, the stage returns, group after
    group and index after index, one record per listed index below [N]: the
    field the index selects (from the end when it is negative), tagged with
    the position of the group.  An index of [N] or more contributes nothing,
    a field no group lists is absent, a field listed twice appears twice; the
    length is the number of listed indices below [N]. *)
Theorem group_fields_by_reply fields groups typed n response :
  Forall (has_key "field_name") fields ->
  llm n = Ok response ->
  parse_response json_loads response = Some (VList groups) ->
  Forall2 group_decodes groups typed ->
  (forall indices i, In indices typed -> In i indices ->
                     - Z.of_nat (List.length fields) <= i) ->
  fst (_group_fields llm json_loads fields n)
  = Ok (grouped_records fields (enumerate typed)) /\
  List.length (grouped_records fields (enumerate typed))
  = List.length (filter (fun i => i <? Z.of_nat (List.length fields))
                        (List.concat typed)).
Proof.
  intros Hf Hllm Hparse H2 Hlow. split.
  - unfold _group_fields. destruct fields as [|f0 fields'].
    { simpl. f_equal. symmetry. apply grouped_records_nil. }
    destruct (group_summary_ok Hf) as [summary Hs].
    unfold bind, lift, messages_create. rewrite Hs, Hllm, Hparse.
    unfold tag_groups, enumerate. simpl rbind.
    now rewrite (@tag_groups_fold (f0 :: fields') groups typed O [] H2 Hlow).
  - unfold enumerate. generalize O.
    assert (Hlow' : forall indices i, In indices typed -> In i indices ->
                      in_range fields i \/ Z.of_nat (List.length fields) <= i).
    { intros indices i H1 H3. specialize (Hlow indices i H1 H3).
      unfold in_range. lia. }
    clear - Hlow'. induction typed as [|indices typed IH]; intros k; simpl; auto.
    rewrite length_app, filter_app, length_app. f_equal.
    + assert (Hi : forall i, In i indices ->
                in_range fields i \/ Z.of_nat (List.length fields) <= i)
        by (intros; eapply Hlow'; simpl; eauto).
      clear - Hi. induction indices as [|i indices IH]; simpl; auto.
      rewrite length_app, IH by (intros; apply Hi; simpl; auto).
      unfold grouped_record.
      destruct (Z.ltb_spec i (Z.of_nat (List.length fields))); simpl; auto.
      destruct (Hi i) as [Hr|Hr]; [simpl; auto| |lia].
      destruct (@list_index_ok _ fields i Hr) as (f & _ & Hn).
      unfold record_at. now rewrite Hn.
    + apply IH. intros; eapply Hlow'; simpl; eauto.
Qed.

End GroupingByReply.

Lemma group_fields_by_reply_witness :
  fst (_group_fields uneven_llm uneven_json [name_a; full_name_b] O)
  = Ok [tagged 0 full_name_b; tagged 0 full_name_b; tagged 0 full_name_b] /\
  List.length (grouped_records [name_a; full_name_b] (enumerate [[1; 5; -1; 1]]))
  = 3%nat.
Proof.
  apply (@group_fields_by_reply uneven_llm uneven_json [name_a; full_name_b]
           [VDict [("group_name", VStr "name");
                   ("field_indices", VList [VInt 1; VInt 5; VInt (-1); VInt 1])]]
           [[1; 5; -1; 1]] O (grouping_text "name" "1, 5, -1, 1")).
  - repeat constructor; discriminate.
  - reflexivity.
  - reflexivity.
  - repeat constructor. eexists. split; reflexivity.
  - intros indices i [<-|[]] Hi. simpl in Hi. simpl. lia.
Defined.

(** C9 as stated fails for an index below [-N]: it passes the bound check
    and then selects nothing, the stage raises [IndexError] and returns no
    output. *)
Lemma group_fields_far_negative_index :
  parse_response far_negative_json (grouping_text "name" "-2")
  = Some (grouping_value "name" [-2]) /\
  _group_fields far_negative_llm far_negative_json [name_a] O
  = (Raise IndexError, 1%nat).
Proof. split; reflexivity. Qed.

(** ** The command line program *)

Section MainFacts.
Variable llm : nat -> result string.
Variable json_loads : string -> option value.
Variable list_of_set : list value -> list value.
Variable path_exists : string -> bool.
Variable read_lines : string -> list string.
Variable path_suffix : string -> string.
Variable path_str : string -> string.
Variable writable : string -> bool.
Variable extract_acroforms : list string -> result (list dict).
Variable env_api_key : option string.

Local Abbreviation run :=
  (main llm json_loads list_of_set path_exists read_lines path_suffix path_str
        writable extract_acroforms env_api_key).

(** C2, amended: when extraction over the valid input PDFs finds no form
    field, the program stops with exit code 0 before it looks at the
    extract-only flag, and writes no file. *)
Theorem main_no_fields args pdf_paths :
  load_pdf_paths path_exists read_lines path_suffix path_str args
  = inl pdf_paths ->
  extract_acroforms pdf_paths = Ok [] ->
  run args = {| exit_code := 0; written := [] |}.
Proof.
  intros Hload Hextract. unfold main. now rewrite Hload, Hextract.
Qed.

(** In extract-only mode a non-empty extraction is written as it is. *)
Lemma main_extract_only args pdf_paths f fields :
  load_pdf_paths path_exists read_lines path_suffix path_str args
  = inl pdf_paths ->
  extract_acroforms pdf_paths = Ok (f :: fields) ->
  extract_only args = true ->
  writable (output args) = true ->
  run args
  = {| exit_code := 0;
       written :=
         [(output args,
           RawExtraction
             (VDict [("total_fields",
                      VInt (Z.of_nat (List.length (f :: fields))));
                     ("fields", VList (map VDict (f :: fields)))]))] |}.
Proof.
  intros Hload Hextract Hflag Hw. unfold main.
  now rewrite Hload, Hextract, Hflag, Hw.
Qed.

End MainFacts.

Lemma main_no_fields_witness :
  load_pdf_paths every_path no_lines pdf_suffix same_path extract_only_args
  = inl ["blank.pdf"] /\
  extract_blank ["blank.pdf"] = Ok [] /\
  main prose_llm reject_json insertion_order every_path no_lines pdf_suffix
       same_path every_path extract_blank None extract_only_args
  = {| exit_code := 0; written := [] |}.
Proof.
  split; [reflexivity|]. split; [reflexivity|].
  apply (@main_no_fields prose_llm reject_json insertion_order every_path
           no_lines pdf_suffix same_path every_path extract_blank None
           extract_only_args ["blank.pdf"]); reflexivity.
Defined.

(** C2 as stated fails: in extract-only mode over a PDF without form fields
    the run ends with exit code 0 and the output file is not written. *)
Lemma extract_only_no_fields_writes_nothing :
  extract_only extract_only_args = true /\
  extract_blank ["blank.pdf"] = Ok [] /\
  exit_code (main prose_llm reject_json insertion_order every_path no_lines
               pdf_suffix same_path every_path extract_blank None
               extract_only_args) = 0 /\
  written (main prose_llm reject_json insertion_order every_path no_lines
             pdf_suffix same_path every_path extract_blank None
             extract_only_args)
  <> [(output extract_only_args, empty_raw_extraction)].
Proof. repeat split; try reflexivity. discriminate. Qed.

(** ** Schema assembly *)

Lemma assoc_set_twice {K V} (eqb : K -> K -> bool) (k : K) (v1 v2 : V) d :
  eqb k k = true ->
  assoc_set eqb k v2 (assoc_set eqb k v1 d) = assoc_set eqb k v2 d.
Proof.
  intros Hk. induction d as [|[k' v'] d IH]; simpl.
  - now rewrite Hk.
  - destruct (eqb k' k) eqn:E; simpl; rewrite E; auto. now rewrite IH.
Qed.

Lemma schema_get_set_same k v (output : schema) :
  hashable k = true ->
  assoc_get key_eqb k (assoc_set key_eqb k v output) = Some v.
Proof. intros H. apply assoc_get_set_same. now apply key_eqb_refl. Qed.

Lemma schema_get_set_other k k2 v (output : schema) :
  key_eqb k k2 = false ->
  assoc_get key_eqb k2 (assoc_set key_eqb k v output)
  = assoc_get key_eqb k2 output.
Proof.
  apply assoc_get_set_other.
  - apply key_eqb_sym.
  - apply key_eqb_trans.
Qed.

(** Writing one more key into the entry just stored under a string key. *)
Lemma schema_set_inner_fresh s name v e (output : schema) :
  schema_set_inner (VStr s) name v
    (assoc_set key_eqb (VStr s) (VDict e) output)
  = Ok (assoc_set key_eqb (VStr s) (VDict (dict_set name v e)) output).
Proof.
  unfold schema_set_inner, schema_getitem, schema_set. simpl hashable. cbv iota.
  rewrite schema_get_set_same by reflexivity. simpl.
  now rewrite assoc_set_twice by apply String.eqb_refl.
Qed.

Section AssemblyFacts.
Variable llm : nat -> result string.
Variable json_loads : string -> option value.

Local Abbreviation label_of := (_generate_label_and_explanation llm json_loads).
Local Abbreviation add := (add_field llm json_loads).

Lemma label_counter name n : snd (label_of name n) = S n.
Proof.
  unfold _generate_label_and_explanation, try_except, bind, messages_create,
    lift, ret.
  destruct (llm n) as [response|e]; simpl; auto.
  destruct (parse_response json_loads response); reflexivity.
Qed.

(** What one successful turn of the field loop does: it stores, under the
    field's name, an entry whose metadata is that of the field. *)
Lemma add_field_ok relationships output idx field n out n' :
  add relationships output (idx, field) n = (Ok out, n') ->
  exists s r e,
    dict_get "field_name" field = Some (VStr s) /\
    get_method (str_of_nat idx) VNone relationships = Ok r /\
    dict_get "_metadata" e = Some (VDict (field_metadata (VStr s) idx field r)) /\
    out = assoc_set key_eqb (VStr s) (VDict e) output /\
    n' = S n.
Proof.
  unfold add_field, bind, lift, ret.
  unfold dict_getitem at 1.
  destruct (dict_get "field_name" field) as [name|] eqn:Hname; [|discriminate].
  pose proof (label_counter name n) as Hn.
  destruct (label_of name n) as [[le|err] n1]; [|discriminate]. simpl in Hn.
  subst n1.
  destruct (get_method (str_of_nat idx) VNone relationships) as [r|];
    [|discriminate].
  destruct (getitem le (VStr "label")) as [label|]; [|discriminate].
  destruct (getitem le (VStr "explanation")) as [explanation|]; [|discriminate].
  destruct name as [| | |s| |]; try discriminate. simpl lower_method.
  unfold schema_set at 1. simpl hashable. cbv iota.
  set (e1 := [("label", label); ("explanation", explanation);
              ("type", dict_get_default "field_type" (VStr "text") field);
              ("required", dict_get_default "required" (VBool false) field);
              ("placeholder", VStr (String.append "Enter your " (lower s)));
              ("_metadata", VDict (field_metadata (VStr s) idx field r))]).
  assert (He1 : dict_get "_metadata" e1
                = Some (VDict (field_metadata (VStr s) idx field r)))
    by reflexivity.
  clearbody e1.
  destruct (truthy (dict_get_default "options" VNone field)) eqn:Ho;
    destruct (truthy (dict_get_default "max_length" VNone field)) eqn:Hm;
    unfold dict_get_default in Ho, Hm; unfold dict_getitem;
    cbv beta iota;
    repeat match goal with
      | H : truthy match dict_get ?k field with _ => _ end = true |- _ =>
          destruct (dict_get k field); [clear H | discriminate H]
      end;
    simpl rbind; rewrite ?schema_set_inner_fresh; simpl rbind;
    rewrite ?schema_set_inner_fresh;
    intros [= <- <-]; exists s, r; eexists;
    (split; [reflexivity|]); (split; [reflexivity|]);
    (split; [|split; reflexivity]);
    rewrite ?dict_get_set_other by discriminate; exact He1.
Qed.

Lemma add_fields_stored relationships fields : forall k output n out n',
  mfold (add relationships) (combine (seq k (List.length fields)) fields)
        output n = (Ok out, n') ->
  stored relationships k fields output out /\
  n' = (n + List.length fields)%nat.
Proof.
  induction fields as [|field fields IH]; intros k output n out n';
    cbn [List.length seq combine mfold].
  - unfold ret. intros [= <- <-]. split; [constructor | simpl; lia].
  - unfold bind at 1.
    destruct (add relationships output (k, field) n) as [[output1|err] n1] eqn:E;
      [|discriminate].
    apply add_field_ok in E as (s & r & e & Hs & Hr & He & -> & ->).
    intros H. apply IH in H as [Hst ->]. split; [|simpl; lia].
    econstructor; eauto.
Qed.

End AssemblyFacts.

(** *** What the field loop leaves in the mapping *)



Lemma stored_other relationships k fields output out key :
  stored relationships k fields output out ->
  not_a_field_name fields key ->
  assoc_get key_eqb key out = assoc_get key_eqb key output.
Proof.
  induction 1 as [|k field fields output s r e out Hs Hr He Hst IH];
    intros Hkey; auto.
  rewrite IH.
  - apply schema_get_set_other. eapply Hkey; simpl; eauto.
  - intros f t Hf. apply Hkey. simpl. auto.
Qed.

Lemma stored_last relationships k fields output out :
  stored relationships k fields output out ->
  forall j field s,
    nth_error fields j = Some field ->
    dict_get "field_name" field = Some (VStr s) ->
    last_named fields j s ->
    exists r e,
      get_method (str_of_nat (k + j)) VNone relationships = Ok r /\
      assoc_get key_eqb (VStr s) out = Some (VDict e) /\
      dict_get "_metadata" e
      = Some (VDict (field_metadata (VStr s) (k + j) field r)).
Proof.
  induction 1 as [|k field fields output s r e out Hs Hr He Hst IH];
    intros j f t Hj Ht Hlast.
  - destruct j; discriminate.
  - destruct j as [|j]; simpl in Hj.
    + injection Hj as <-. assert (t = s) by congruence. subst t.
      exists r, e. rewrite Nat.add_0_r. repeat split; auto.
      rewrite (stored_other (key := VStr s) Hst).
      * now apply schema_get_set_same.
      * intros g u Hg Hu. simpl. apply String.eqb_neq. intros ->.
        apply In_nth_error in Hg as [i Hi].
        apply (Hlast (S i) g); auto. lia.
    + replace (k + S j)%nat with (S k + j)%nat by lia.
      apply IH; auto.
      intros i g Hi Hg. apply (Hlast (S i) g); auto. lia.
Qed.

(** Every entry of the result satisfies [P] when the entries at the start do
    and the entry of every field does. *)
Lemma stored_values (P : value -> Prop) relationships k fields output out :
  stored relationships k fields output out ->
  (forall j field s r e,
      nth_error fields j = Some field ->
      get_method (str_of_nat (k + j)) VNone relationships = Ok r ->
      dict_get "_metadata" e
      = Some (VDict (field_metadata (VStr s) (k + j) field r)) ->
      P (VDict e)) ->
  Forall (fun kv => P (snd kv)) output ->
  Forall (fun kv => P (snd kv)) out.
Proof.
  induction 1 as [|k field fields output s r e out Hs Hr He Hst IH];
    intros HP Hout; auto.
  apply IH.
  - intros j f t r' e' Hj Hr' He'.
    apply (HP (S j) f t r' e'); auto;
      now replace (k + S j)%nat with (S k + j)%nat by lia.
  - apply assoc_set_values; auto.
    apply (HP O field s r e); auto; now rewrite Nat.add_0_r.
Qed.

(** *** Metadata of a field entry *)

Lemma field_metadata_facts name idx field r :
  let metadata := field_metadata name idx field r in
  dict_get "field_name" metadata = Some name /\
  dict_get "order_index" metadata
  = Some (dict_get_default "_group_id" (VInt (Z.of_nat idx)) field) /\
  dict_get "parent" metadata = Some (fst (parent_of r)) /\
  dict_get "is_parent_question" metadata = None /\
  dict_get "parent_condition" metadata
  = (if truthy (snd (parent_of r)) then Some (snd (parent_of r)) else None).
Proof.
  unfold field_metadata. destruct (parent_of r) as [parent_id parent_condition].
  simpl fst. simpl snd. destruct (truthy parent_condition).
  - rewrite !dict_get_set_other by discriminate. rewrite dict_get_set_same.
    repeat split; reflexivity.
  - repeat split; reflexivity.
Qed.

Lemma field_entry_not_parent name idx field r e :
  dict_get "_metadata" e = Some (VDict (field_metadata name idx field r)) ->
  is_parent_entry (VDict e) = false.
Proof.
  intros He. unfold is_parent_entry, metadata_of. rewrite He.
  destruct (field_metadata_facts name idx field r) as (_ & _ & _ & H & _).
  unfold dict_get_default. now rewrite H.
Qed.

(** *** Parent questions *)

Lemma add_parent_ok output parent_q out :
  add_parent_question output parent_q = Ok out ->
  exists q e,
    getitem parent_q (VStr "question_id") = Ok q /\
    hashable q = true /\
    out = assoc_set key_eqb q (VDict e) output /\
    is_parent_entry (VDict e) = true.
Proof.
  unfold add_parent_question.
  destruct (getitem parent_q (VStr "question_id")) as [q|]; [|discriminate].
  destruct (getitem parent_q (VStr "label")) as [label|]; [|discriminate].
  destruct (getitem parent_q (VStr "type")) as [type|]; [|discriminate].
  destruct (get_method "options" VNone parent_q) as [options|]; [|discriminate].
  simpl. unfold schema_set. destruct (hashable q) eqn:Hq; [|discriminate].
  intros [= <-]. eexists q, _. repeat split; auto.
Qed.


Lemma parents_total parent_qs : forall output,
  Forall parent_question_ok parent_qs ->
  exists out, rfold add_parent_question parent_qs output = Ok out.
Proof.
  induction parent_qs as [|parent_q parent_qs IH]; intros output Hok; simpl.
  - eauto.
  - inversion Hok as [|? ? (d & q & label & type & -> & Hq & Hh & Hl & Ht) Hok'];
      subst.
    unfold add_parent_question. simpl.
    unfold dict_getitem. rewrite Hq, Hl, Ht. simpl.
    unfold schema_set. rewrite Hh. simpl. apply IH; auto.
Qed.








(** *** Assembly *)

Section AssemblyTheorems.
Variable llm : nat -> result string.
Variable json_loads : string -> option value.

Local Abbreviation label_of := (_generate_label_and_explanation llm json_loads).
Local Abbreviation add := (add_field llm json_loads).

(** The assembly, once it succeeds, split into its two loops. *)
Lemma assemble_ok conditional_logic fields n out n' :
  assemble llm json_loads conditional_logic fields n = (Ok out, n') ->
  exists parent_qs parents relationships,
    rbind (get_method "parent_questions" (VList []) conditional_logic) iter
    = Ok parent_qs /\
    rfold add_parent_question parent_qs [] = Ok parents /\
    get_method "field_relationships" (VDict []) conditional_logic
    = Ok relationships /\
    stored relationships 0 fields parents out /\
    n' = (n + List.length fields)%nat.
Proof.
  unfold assemble, bind, lift.
  destruct (get_method "parent_questions" (VList []) conditional_logic)
    as [parent_questions|]; [|discriminate].
  destruct (iter parent_questions) as [parent_qs|] eqn:Hiter; [|discriminate].
  destruct (rfold add_parent_question parent_qs []) as [parents|] eqn:Hp;
    [|discriminate].
  destruct (get_method "field_relationships" (VDict []) conditional_logic)
    as [relationships|]; [|discriminate].
  intros H. apply add_fields_stored in H as [Hst ->].
  exists parent_qs, parents, relationships. simpl. auto.
Qed.

(** *** The assembly succeeds on well-formed input *)

Lemma label_usable s n :
  label_reply_usable llm json_loads n ->
  exists le label explanation,
    label_of (VStr s) n = (Ok le, S n) /\
    getitem le (VStr "label") = Ok label /\
    getitem le (VStr "explanation") = Ok explanation.
Proof.
  unfold label_reply_usable, _generate_label_and_explanation, try_except, bind,
    messages_create, lift, ret.
  destruct (llm n) as [response|err].
  - destruct (parse_response json_loads response) as [v|].
    + intros (d & label & explanation & -> & Hl & He).
      exists (VDict d), label, explanation. simpl. unfold dict_getitem.
      now rewrite Hl, He.
    + intros _. exists (templated_label s). do 2 eexists.
      split; [reflexivity|]. split; reflexivity.
  - intros _. exists (templated_label s). do 2 eexists.
    split; [reflexivity|]. split; reflexivity.
Qed.

Lemma add_field_total relationships output idx field n :
  named field ->
  label_reply_usable llm json_loads n ->
  exists out, add (VDict relationships) output (idx, field) n = (Ok out, S n).
Proof.
  intros [s Hs] Hlabel.
  destruct (@label_usable s n Hlabel) as (le & label & explanation & Hle & Hl & He).
  unfold add_field, bind, lift, ret. unfold dict_getitem at 1.
  rewrite Hs, Hle. simpl get_method. cbv iota beta. rewrite Hl, He.
  simpl lower_method. unfold schema_set at 1. simpl hashable. cbv iota beta.
  destruct (truthy (dict_get_default "options" VNone field)) eqn:Ho;
    destruct (truthy (dict_get_default "max_length" VNone field)) eqn:Hm;
    unfold dict_get_default in Ho, Hm; unfold dict_getitem;
    cbv beta iota;
    repeat match goal with
      | H : truthy match dict_get ?k field with _ => _ end = true |- _ =>
          destruct (dict_get k field); [clear H | discriminate H]
      end;
    simpl rbind; rewrite ?schema_set_inner_fresh; simpl rbind;
    rewrite ?schema_set_inner_fresh; eauto.
Qed.

Lemma add_fields_total relationships fields : forall k output n,
  Forall named fields ->
  (forall i, (n <= i < n + List.length fields)%nat ->
             label_reply_usable llm json_loads i) ->
  exists out,
    mfold (add (VDict relationships))
          (combine (seq k (List.length fields)) fields) output n
    = (Ok out, (n + List.length fields)%nat).
Proof.
  induction fields as [|field fields IH]; intros k output n Hn Hl;
    cbn [List.length seq combine mfold].
  - exists output. unfold ret. f_equal. simpl. lia.
  - inversion Hn as [|? ? Hf Hn']; subst.
    destruct (@add_field_total relationships output k field n Hf) as [o Ho].
    { apply Hl. simpl. lia. }
    unfold bind at 1. rewrite Ho.
    destruct (IH (S k) o (S n) Hn') as [out Hout].
    { intros i Hi. apply Hl. simpl. lia. }
    exists out. rewrite Hout. f_equal. simpl. lia.
Qed.

Lemma assemble_total conditional_logic fields n :
  logic_ok conditional_logic ->
  Forall named fields ->
  (forall i, (n <= i < n + List.length fields)%nat ->
             label_reply_usable llm json_loads i) ->
  exists out,
    assemble llm json_loads conditional_logic fields n
    = (Ok out, (n + List.length fields)%nat).
Proof.
  intros (d & -> & (parent_qs & Hq & Hok) & (relationships & Hr)) Hn Hl.
  unfold assemble, bind, lift. simpl get_method. rewrite Hq, Hr. simpl iter.
  cbv iota beta.
  destruct (parents_total [] Hok) as [parents ->].
  apply add_fields_total; auto.
Qed.


(** C3, amended: when the structural-synthesis reply does not decode, every
    schema the stage returns has no entry flagged as a parent question, and
    the metadata of every entry has [parent] set to [None] and no
    [parent_condition] key; and the stage does return a schema whenever every
    field has a string name and every label request fails or decodes to an
    object with a label and an explanation. *)
Theorem conditional_logic_fallback fields n response :
  llm n = Ok response ->
  parse_response json_loads response = None ->
  (forall out n',
      _generate_conditional_logic llm json_loads fields n = (Ok out, n') ->
      Forall (fun kv =>
                is_parent_entry (snd kv) = false /\
                exists metadata,
                  metadata_of (snd kv) = Some metadata /\
                  dict_get "parent" metadata = Some VNone /\
                  dict_get "parent_condition" metadata = None)
             out) /\
  (Forall named fields ->
   (forall i, (n < i <= n + List.length fields)%nat ->
              label_reply_usable llm json_loads i) ->
   exists out,
     _generate_conditional_logic llm json_loads fields n
     = (Ok out, S (n + List.length fields))).
Proof.
  intros Hllm Hparse.
  split.
  - intros out n' H. unfold _generate_conditional_logic in H.
    unfold bind at 1, lift at 1 in H.
    destruct (logic_summary fields) as [summary|]; [|discriminate].
    unfold bind at 1, messages_create in H. rewrite Hllm, Hparse in H.
    apply assemble_ok in H
      as (parent_qs & parents & relationships & Hq & Hp & Hr & Hst & _).
    simpl in Hq, Hr. injection Hq as <-. injection Hr as <-.
    simpl in Hp. injection Hp as <-.
    eapply stored_values with
      (P := fun v => is_parent_entry v = false /\
                     exists metadata, metadata_of v = Some metadata /\
                       dict_get "parent" metadata = Some VNone /\
                       dict_get "parent_condition" metadata = None);
      [exact Hst | | constructor].
    intros j field s r e _ Hr He. simpl in Hr. injection Hr as <-.
    split; [eapply field_entry_not_parent; eauto|].
    exists (field_metadata (VStr s) (0 + j) field VNone).
    unfold metadata_of. rewrite He.
    destruct (field_metadata_facts (VStr s) (0 + j) field VNone)
      as (_ & _ & Hparent & _ & Hcond).
    auto.
  - intros Hn Hl. unfold _generate_conditional_logic.
    assert (Hs : exists summary, logic_summary fields = Ok summary).
    { apply rmap_total. intros [idx field] Hin. apply In_enumerate in Hin.
      rewrite Forall_forall in Hn. destruct (Hn _ Hin) as [s Hs].
      unfold dict_getitem. rewrite Hs. simpl. eauto. }
    destruct Hs as [summary Hs].
    unfold bind at 1, lift at 1. rewrite Hs.
    unfold bind at 1, messages_create. rewrite Hllm, Hparse.
    destruct (@assemble_total no_conditional_logic fields (S n)) as [out Hout];
      auto.
    + exists [("parent_questions", VList []); ("field_relationships", VDict [])].
      split; auto. split.
      * exists []. split; auto.
      * exists []. reflexivity.
    + intros i Hi. apply Hl. lia.
    + exists out. rewrite Hout. f_equal.
Qed.

End AssemblyTheorems.


Lemma conditional_logic_fallback_witness :
  prose_llm O = Ok "Sorry, I cannot produce that." /\
  parse_response reject_json "Sorry, I cannot produce that." = None /\
  (forall out n',
      _generate_conditional_logic prose_llm reject_json [name_a; full_name_b] O
      = (Ok out, n') ->
      Forall (fun kv =>
                is_parent_entry (snd kv) = false /\
                exists metadata,
                  metadata_of (snd kv) = Some metadata /\
                  dict_get "parent" metadata = Some VNone /\
                  dict_get "parent_condition" metadata = None)
             out) /\
  (Forall named [name_a; full_name_b] ->
   (forall i, (0 < i <= 0 + List.length [name_a; full_name_b])%nat ->
              label_reply_usable prose_llm reject_json i) ->
   exists out,
     _generate_conditional_logic prose_llm reject_json [name_a; full_name_b] O
     = (Ok out, S (0 + List.length [name_a; full_name_b]))).
Proof.
  split; [reflexivity|]. split; [reflexivity|].
  exact (@conditional_logic_fallback prose_llm reject_json
           [name_a; full_name_b] O "Sorry, I cannot produce that."
           eq_refl eq_refl).
Defined.

(** C3 as stated fails: with a structural reply that does not decode, the
    metadata of the field entry does carry the key [parent], holding [None]. *)
Lemma fallback_metadata_carries_parent_key :
  parse_response reject_json "Sorry, I cannot produce that." = None /\
  _generate_conditional_logic prose_llm reject_json [name_a] O
  = (Ok [(VStr "Name", VDict name_entry)], 2%nat) /\
  exists metadata,
    metadata_of (VDict name_entry) = Some metadata /\
    has_key "parent" metadata.
Proof.
  split; [reflexivity|]. split; [reflexivity|].
  eexists. split; [reflexivity|]. discriminate.
Qed.

(** A stray index seen from the command line: the exception leaves
    [process_fields], [main] reports it and exits with status 1, and nothing
    is written. *)
Example main_aborts_on_stray_index :
  main stray_llm stray_json insertion_order every_path no_lines pdf_suffix
       same_path every_path extract_one_field None full_run_args
  = {| exit_code := 1; written := [] |}.
Proof. reflexivity. Qed.

(** * Further properties of the code *)

(** ** The extractor *)

Lemma land_two z : Z.land z 2 = if Z.testbit z 1 then 2 else 0.
Proof.
  apply Z.bits_inj'. intros i Hi. rewrite Z.land_spec.
  change 2 with (2 ^ 1) at 1. rewrite Z.pow2_bits_eqb by lia.
  destruct (Z.eqb_spec 1 i) as [<-|Hne].
  - rewrite andb_true_r. destruct (Z.testbit z 1) eqn:E; auto.
  - rewrite andb_false_r. destruct (Z.testbit z 1).
    + change 2 with (2 ^ 1). rewrite Z.pow2_bits_eqb by lia.
      symmetry. now apply Z.eqb_neq.
    + now rewrite Z.bits_0.
Qed.

(** X1: a field is required exactly when bit 1 (the value 2) of its integer
    flags is set, for negative flags too; without flags, with flags that are
    no integer, or with a field info that is no dict, it is not required. *)
Theorem is_required_reads_bit_one :
  (forall d z, dict_get "/Ff" d = Some (VInt z) ->
               _is_required (VDict d) = Z.testbit z 1) /\
  (forall d, dict_get "/Ff" d = None -> _is_required (VDict d) = false) /\
  (forall d v, dict_get "/Ff" d = Some v -> as_int v = None ->
               _is_required (VDict d) = false) /\
  (forall field_info, (forall d, field_info <> VDict d) ->
                      _is_required field_info = false).
Proof.
  repeat split.
  - intros d z H. unfold _is_required, dict_get_default. rewrite H.
    cbn [as_int]. rewrite land_two. now destruct (Z.testbit z 1).
  - intros d H. unfold _is_required, dict_get_default. now rewrite H.
  - intros d v H Hv. unfold _is_required, dict_get_default. now rewrite H, Hv.
  - intros field_info H. destruct field_info; auto. now destruct (H d).
Qed.

Lemma is_required_reads_bit_one_witness :
  _is_required (VDict [("/Ff", VInt 4098)]) = true /\
  _is_required (VDict [("/Ff", VInt (-4))]) = false /\
  _is_required (VDict [("/Ff", VStr "2")]) = false.
Proof.
  destruct is_required_reads_bit_one as (Hbit & _ & Hother & _).
  split; [|split].
  - apply (Hbit [("/Ff", VInt 4098)] 4098). reflexivity.
  - apply (Hbit [("/Ff", VInt (-4))] (-4)). reflexivity.
  - apply (Hother [("/Ff", VStr "2")] (VStr "2")); reflexivity.
Defined.

Lemma rmap_Forall2 {A B} (f : A -> result B) l : forall ys,
  rmap f l = Ok ys -> Forall2 (fun x y => f x = Ok y) l ys.
Proof.
  induction l as [|x l IH]; simpl; intros ys.
  - intros [= <-]. constructor.
  - destruct (f x) as [y|] eqn:Hx; [|discriminate]. simpl.
    destruct (rmap f l) as [ys'|]; [|discriminate]. simpl.
    intros [= <-]. constructor; auto.
Qed.

Section ExtractorFacts.
Variable py_str : value -> string.
Variable py_int : value -> result Z.
Variable path_exists : string -> bool.
Variable path_name : string -> string.
Variable open_pdf : string -> result pdf_reader.

Local Abbreviation from_file :=
  (extract_from_file py_str py_int path_exists path_name open_pdf).
Local Abbreviation from_files :=
  (extract_from_multiple_files py_str py_int path_exists path_name open_pdf).

Lemma field_type_is_known field_info :
  In (_get_field_type py_str field_info) field_types.
Proof.
  unfold field_types. destruct field_info; try (now left).
  unfold _get_field_type, type_mapping; cbn [assoc_get].
  case_string_eqb; cbn [In]; auto 6.
Qed.

Lemma extract_field_info_record name field_info source r :
  _extract_field_info py_str py_int name field_info source = Ok r ->
  extracted_record name source r.
Proof.
  unfold _extract_field_info.
  destruct (_get_max_length py_int field_info) as [max_length|]; [|discriminate].
  simpl. intros [= <-]. repeat split.
  - eexists. split; [reflexivity|]. apply field_type_is_known.
  - eexists. reflexivity.
Qed.

(** X2: when a file is extracted, it exists and was opened, and the records
    are, in order, one per form field the reader reports (none when it
    reports no form): each has the eight keys of a record, the field's name,
    the file's name as source, one of the four types and a boolean required
    flag, so each is a field record with a string name. *)
Theorem extract_from_file_records pdf_path records :
  from_file pdf_path = Ok records ->
  path_exists pdf_path = true /\
  exists reader,
    open_pdf pdf_path = Ok reader /\
    Forall2 (fun nf r => extracted_record (fst nf) (path_name pdf_path) r)
            (form_fields_of reader) records /\
    Forall field_record records /\
    Forall named records.
Proof.
  unfold extract_from_file.
  destruct (path_exists pdf_path); [|discriminate]. simpl.
  destruct (open_pdf pdf_path) as [reader|]; [|discriminate]. simpl.
  intros H. split; auto. exists reader. split; auto.
  assert (H2 : Forall2 (fun nf r => extracted_record (fst nf) (path_name pdf_path) r)
                       (form_fields_of reader) records).
  { unfold form_fields_of.
    destruct (get_form_text_fields reader), (get_fields reader) as [ff|];
      try (injection H as <-; constructor);
      apply rmap_Forall2 in H;
      (eapply Forall2_impl; [|exact H]);
      intros [name info] r Hr; simpl;
      eapply extract_field_info_record; eauto. }
  split; auto.
  clear H. induction H2 as [|nf r ffs rs (_ & Hn & Hs & _) _ [IH1 IH2]].
  - split; constructor.
  - split; constructor; auto.
    + split; [unfold has_key; congruence | eauto].
    + eexists; eauto.
Qed.

Lemma from_files_acc pdf_paths : forall acc,
  rfold (fun all_fields pdf_path =>
           rbind (from_file pdf_path) (fun fields => Ok (all_fields ++ fields)))
        pdf_paths acc
  = rbind (from_files pdf_paths) (fun r => Ok (acc ++ r)).
Proof.
  unfold extract_from_multiple_files.
  induction pdf_paths as [|p ps IH]; intros acc; simpl.
  - now rewrite app_nil_r.
  - destruct (from_file p) as [fields|]; simpl; auto.
    rewrite (IH (acc ++ fields)), (IH fields).
    destruct (rfold _ ps []) as [r|]; simpl; auto.
    now rewrite app_assoc.
Qed.

(** X3: files are extracted one after the other and their records
    concatenated in the order of the paths; and a path that does not exist
    fails the whole extraction with [FileNotFoundError], whatever the files
    before it gave. *)
Theorem extract_from_multiple_files_concatenates :
  (forall ps1 ps2,
      from_files (ps1 ++ ps2)
      = rbind (from_files ps1)
              (fun a => rbind (from_files ps2) (fun b => Ok (a ++ b)))) /\
  (forall ps1 p ps2 a,
      from_files ps1 = Ok a ->
      path_exists p = false ->
      from_files (ps1 ++ p :: ps2) = Raise FileNotFoundError).
Proof.
  assert (Happ : forall ps1 ps2,
      from_files (ps1 ++ ps2)
      = rbind (from_files ps1)
              (fun a => rbind (from_files ps2) (fun b => Ok (a ++ b)))).
  { intros ps1 ps2.
    enough (G : forall acc,
      rfold (fun all_fields pdf_path =>
               rbind (from_file pdf_path)
                     (fun fields => Ok (all_fields ++ fields)))
            (ps1 ++ ps2) acc
      = rbind (rfold (fun all_fields pdf_path =>
                        rbind (from_file pdf_path)
                              (fun fields => Ok (all_fields ++ fields)))
                     ps1 acc)
              (fun a => rbind (from_files ps2) (fun b => Ok (a ++ b))))
      by apply (G []).
    induction ps1 as [|p ps1 IH]; intros acc; simpl.
    - apply from_files_acc.
    - destruct (from_file p) as [fields|]; simpl; auto. }
  split; auto.
  intros ps1 p ps2 a Ha Hp. rewrite Happ, Ha. simpl.
  unfold extract_from_multiple_files. simpl.
  unfold extract_from_file at 1. now rewrite Hp.
Qed.

End ExtractorFacts.


Lemma extract_from_file_records_witness :
  exists records,
    extract_from_file str_of_text int_of_number a_and_b_exist same_path
      two_documents "a.pdf" = Ok records /\
    List.length records = 2%nat /\
    a_and_b_exist "a.pdf" = true /\
    exists reader,
      two_documents "a.pdf" = Ok reader /\
      Forall2 (fun nf r => extracted_record (fst nf) (same_path "a.pdf") r)
              (form_fields_of reader) records /\
      Forall field_record records /\
      Forall named records.
Proof.
  eexists. split; [reflexivity|]. split; [reflexivity|].
  apply (@extract_from_file_records str_of_text int_of_number a_and_b_exist
           same_path two_documents "a.pdf").
  reflexivity.
Defined.

Lemma extract_from_multiple_files_concatenates_witness :
  a_and_b_exist "ghost.pdf" = false /\
  List.length
    match extract_from_multiple_files str_of_text int_of_number a_and_b_exist
            same_path two_documents ["a.pdf"; "b.pdf"] with
    | Ok records => records
    | Raise _ => []
    end = 2%nat /\
  extract_from_multiple_files str_of_text int_of_number a_and_b_exist
    same_path two_documents (["a.pdf"; "b.pdf"] ++ "ghost.pdf" :: ["a.pdf"])
  = Raise FileNotFoundError.
Proof.
  split; [reflexivity|]. split; [reflexivity|].
  destruct (extract_from_multiple_files_concatenates str_of_text int_of_number
              a_and_b_exist same_path two_documents) as [_ H].
  eapply H; reflexivity.
Defined.

(** ** Batches of the deduplication stage *)

Lemma Forall_slice {A} (P : A -> Prop) (l : list A) i size :
  Forall P l -> Forall P (slice i size l).
Proof.
  intros H. unfold slice.
  rewrite <- (firstn_skipn i l) in H. apply Forall_app in H as [_ H].
  rewrite <- (firstn_skipn (Z.to_nat size) (skipn i l)) in H.
  now apply Forall_app in H as [H _].
Qed.

Lemma chunks_concat {A} s c : forall l : list A,
  (List.length l <= c * s)%nat ->
  List.concat (map (fun k => firstn s (skipn (k * s) l)) (seq 0 c)) = l.
Proof.
  induction c as [|c IH]; intros l Hl; simpl.
  - destruct l; simpl in *; auto; lia.
  - rewrite <- seq_shift, map_map.
    rewrite (map_ext _ (fun k => firstn s (skipn (k * s) (skipn s l)))).
    + rewrite IH; [apply firstn_skipn|]. rewrite length_skipn. lia.
    + intros k. rewrite skipn_skipn. do 2 f_equal. lia.
Qed.

Lemma batch_count_covers n s :
  (0 < s)%nat ->
  (n <= (n + s - 1) / s * s)%nat /\
  (forall k, k < (n + s - 1) / s -> k * s < n)%nat.
Proof.
  intros Hs.
  pose proof (Nat.div_mod_eq (n + s - 1) s) as Hd.
  pose proof (Nat.mod_upper_bound (n + s - 1) s ltac:(lia)) as Hm.
  split; [nia|]. intros k Hk. nia.
Qed.

(** X4: for a positive batch size the batches the loop takes are a partition
    of the fields: concatenated in order they give back the field list, and
    each of them has at least one and at most [batch_size] fields. *)
Theorem batches_partition_the_fields (fields : list dict) size :
  0 < size ->
  range_step (List.length fields) size
  = Ok (batch_starts (List.length fields) (Z.to_nat size)) /\
  List.concat (map (fun i => slice i size fields)
                   (batch_starts (List.length fields) (Z.to_nat size)))
  = fields /\
  Forall (fun i =>
            (0 < List.length (slice i size fields) <= Z.to_nat size)%nat)
         (batch_starts (List.length fields) (Z.to_nat size)).
Proof.
  intros Hs. assert (Hs' : (0 < Z.to_nat size)%nat) by lia.
  destruct (batch_count_covers (List.length fields) Hs') as [Hcover Hin].
  split; [|split].
  - unfold range_step, batch_starts.
    destruct (Z.eqb_spec size 0); [lia|]. destruct (Z.ltb_spec size 0); [lia|].
    reflexivity.
  - unfold batch_starts, slice. rewrite map_map. now apply chunks_concat.
  - unfold batch_starts. apply Forall_forall. intros i Hi.
    apply in_map_iff in Hi as (k & <- & Hk). apply in_seq in Hk.
    unfold slice. rewrite length_firstn, length_skipn.
    specialize (Hin k). lia.
Qed.

Lemma batches_partition_the_fields_witness :
  range_step (List.length [name_a; full_name_b; name_a]) 2 = Ok [0; 2]%nat /\
  List.concat (map (fun i => slice i 2 [name_a; full_name_b; name_a])
                   (batch_starts 3 (Z.to_nat 2)))
  = [name_a; full_name_b; name_a] /\
  Forall (fun i =>
            (0 < List.length (slice i 2 [name_a; full_name_b; name_a])
             <= Z.to_nat 2)%nat)
         (batch_starts 3 (Z.to_nat 2)).
Proof.
  apply (@batches_partition_the_fields [name_a; full_name_b; name_a] 2).
  reflexivity.
Defined.

Section BatchFacts.
Variable llm : nat -> result string.
Variable json_loads : string -> option value.
Variable list_of_set : list value -> list value.

Local Abbreviation dedup_batch := (_deduplicate_batch llm json_loads list_of_set).
Local Abbreviation dedup_fields := (_deduplicate_fields llm json_loads list_of_set).
Local Abbreviation turn := (deduplicate_turn llm json_loads list_of_set).

Lemma turns_all_fallback fields size starts : forall acc n,
  Forall field_record fields ->
  (forall i, (n <= i < n + List.length starts)%nat ->
             exists response, llm i = Ok response /\
                              parse_response json_loads response = None) ->
  mfold (turn fields size) starts acc n
  = (Ok (acc ++ List.concat (map (fun i => slice i size fields) starts)),
     (n + List.length starts)%nat).
Proof.
  induction starts as [|i starts IH]; intros acc n Hf Hl; simpl.
  - unfold ret. now rewrite app_nil_r, Nat.add_0_r.
  - destruct (Hl n) as (response & Hllm & Hparse); [simpl; lia|].
    unfold bind at 1, deduplicate_turn at 1, bind at 1.
    rewrite (@dedup_batch_fallback llm json_loads list_of_set _ _ _
               (Forall_slice i size Hf) Hllm Hparse).
    unfold ret at 1. rewrite IH; auto.
    + rewrite <- app_assoc. f_equal. lia.
    + intros j Hj. apply Hl. simpl. lia.
Qed.

(** X5: when no reply of the deduplication stage decodes, the stage returns
    the field records as they came, all of them and in order, after one
    request per batch. *)
Theorem deduplicate_fields_all_fallback fields size n :
  0 < size ->
  Forall field_record fields ->
  (forall i,
      (n <= i < n + (List.length fields + Z.to_nat size - 1) / Z.to_nat size)%nat ->
      exists response, llm i = Ok response /\
                       parse_response json_loads response = None) ->
  _deduplicate_fields llm json_loads list_of_set fields size n
  = (Ok fields,
     (n + (List.length fields + Z.to_nat size - 1) / Z.to_nat size)%nat).
Proof.
  intros Hs Hf Hl.
  assert (Hconcat :
    List.concat (map (fun i => slice i size fields)
                     (batch_starts (List.length fields) (Z.to_nat size)))
    = fields).
  { unfold batch_starts, slice. rewrite map_map. apply chunks_concat.
    apply batch_count_covers. lia. }
  rewrite dedup_fields_loop by auto.
  rewrite turns_all_fallback; auto.
  - rewrite Hconcat. unfold batch_starts.
    now rewrite length_map, length_seq.
  - unfold batch_starts. now rewrite length_map, length_seq.
Qed.

End BatchFacts.

Lemma deduplicate_fields_all_fallback_witness :
  _deduplicate_fields prose_llm reject_json insertion_order
    [name_a; full_name_b; name_a] 2 O
  = (Ok [name_a; full_name_b; name_a], 2%nat).
Proof.
  apply (@deduplicate_fields_all_fallback prose_llm reject_json insertion_order
           [name_a; full_name_b; name_a] 2 O).
  - reflexivity.
  - repeat constructor; try discriminate;
      [now exists "a.pdf" | now exists "b.pdf" | now exists "a.pdf"].
  - intros i _. exists "Sorry, I cannot produce that.". split; reflexivity.
Defined.

(** ** Requests made by the pipeline *)

Section RequestFacts.
Variable llm : nat -> result string.
Variable json_loads : string -> option value.
Variable list_of_set : list value -> list value.

Local Abbreviation dedup_batch := (_deduplicate_batch llm json_loads list_of_set).
Local Abbreviation dedup_fields := (_deduplicate_fields llm json_loads list_of_set).
Local Abbreviation turn := (deduplicate_turn llm json_loads list_of_set).

Lemma dedup_batch_counter batch n out n' :
  dedup_batch batch n = (Ok out, n') -> n' = S n.
Proof.
  unfold _deduplicate_batch, bind, lift, messages_create, ret.
  destruct (dedup_summary batch); [|discriminate].
  destruct (llm n) as [response|]; [|discriminate].
  destruct (parse_response json_loads response); now intros [= _ <-].
Qed.

Lemma turns_counter fields size starts : forall acc n out n',
  mfold (turn fields size) starts acc n = (Ok out, n') ->
  n' = (n + List.length starts)%nat.
Proof.
  induction starts as [|i starts IH]; intros acc n out n'; simpl.
  - unfold ret. intros [= _ <-]. lia.
  - unfold bind at 1, deduplicate_turn at 1, bind at 1.
    destruct (dedup_batch (slice i size fields) n) as [[d|] n1] eqn:E;
      [|discriminate].
    apply dedup_batch_counter in E as ->. unfold ret at 1.
    intros H. apply IH in H. lia.
Qed.

Lemma group_fields_counter fields n out n' :
  _group_fields llm json_loads fields n = (Ok out, n') ->
  n' = match fields with [] => n | _ => S n end.
Proof.
  unfold _group_fields. destruct fields as [|f fields].
  - unfold ret. now intros [= _ <-].
  - unfold bind, lift, messages_create.
    destruct (group_summary (f :: fields)); [|discriminate].
    destruct (llm n); [|discriminate]. now intros [= _ <-].
Qed.

Lemma conditional_logic_counter fields n out n' :
  _generate_conditional_logic llm json_loads fields n = (Ok out, n') ->
  n' = S (n + List.length fields).
Proof.
  unfold _generate_conditional_logic. unfold bind at 1, lift at 1.
  destruct (logic_summary fields); [|discriminate].
  unfold bind at 1, messages_create.
  destruct (llm n); [|discriminate].
  intros H. apply assemble_ok in H as (_ & _ & _ & _ & _ & _ & _ & ->). lia.
Qed.

(** X6: a run of [process_fields] that succeeds with a positive batch size
    makes one request per batch of the input, one for the grouping unless
    deduplication left no field, one for the conditional logic, and one per
    grouped field for its label. *)
Theorem process_fields_requests fields size n out n' :
  0 < size ->
  process_fields llm json_loads list_of_set fields size n = (Ok out, n') ->
  exists deduplicated grouped,
    fst (_deduplicate_fields llm json_loads list_of_set fields size n)
    = Ok deduplicated /\
    fst (_group_fields llm json_loads deduplicated
           (n + (List.length fields + Z.to_nat size - 1) / Z.to_nat size)%nat)
    = Ok grouped /\
    n' = (n
          + (List.length fields + Z.to_nat size - 1) / Z.to_nat size
          + match deduplicated with [] => 0 | _ => 1 end
          + 1
          + List.length grouped)%nat.
Proof.
  intros Hs. unfold process_fields. unfold bind at 1.
  destruct (dedup_fields fields size n) as [[deduplicated|] n1] eqn:Hd;
    [|discriminate].
  unfold bind at 1.
  destruct (_group_fields llm json_loads deduplicated n1)
    as [[grouped|] n2] eqn:Hg; [|discriminate].
  intros Hc. exists deduplicated, grouped. split; auto.
  rewrite dedup_fields_loop in Hd by auto.
  apply turns_counter in Hd.
  unfold batch_starts in Hd. rewrite length_map, length_seq in Hd.
  subst n1. rewrite Hg. split; auto.
  apply group_fields_counter in Hg.
  apply conditional_logic_counter in Hc.
  destruct deduplicated; lia.
Qed.

End RequestFacts.

Lemma process_fields_requests_witness :
  exists out,
    process_fields prose_llm reject_json insertion_order
      [name_a; full_name_b; name_a] 2 O = (Ok out, 7%nat) /\
    exists deduplicated grouped,
      fst (_deduplicate_fields prose_llm reject_json insertion_order
             [name_a; full_name_b; name_a] 2 O) = Ok deduplicated /\
      fst (_group_fields prose_llm reject_json deduplicated
             (0 + (List.length [name_a; full_name_b; name_a] + Z.to_nat 2 - 1)
                  / Z.to_nat 2)%nat)
      = Ok grouped /\
      7%nat = (0
               + (List.length [name_a; full_name_b; name_a] + Z.to_nat 2 - 1)
                 / Z.to_nat 2
               + match deduplicated with [] => 0 | _ => 1 end
               + 1
               + List.length grouped)%nat.
Proof.
  eexists. split; [vm_compute; reflexivity|].
  eapply (@process_fields_requests prose_llm reject_json insertion_order
            [name_a; full_name_b; name_a] 2 O).
  - reflexivity.
  - vm_compute. reflexivity.
Defined.

(** ** Edges of the pipeline *)

Lemma parents_flagged parent_qs : forall output out,
  rfold add_parent_question parent_qs output = Ok out ->
  Forall (fun kv => is_parent_entry (snd kv) = true) output ->
  Forall (fun kv => is_parent_entry (snd kv) = true) out.
Proof.
  induction parent_qs as [|parent_q parent_qs IH]; intros output out; simpl.
  - now intros [= <-].
  - destruct (add_parent_question output parent_q) as [output1|] eqn:E;
      [|discriminate].
    apply add_parent_ok in E as (q & e & _ & _ & -> & He). simpl.
    intros H Hout. apply (IH _ _ H).
    now apply (assoc_set_values key_eqb (fun v => is_parent_entry v = true)).
Qed.

Section EdgeFacts.
Variable llm : nat -> result string.
Variable json_loads : string -> option value.
Variable list_of_set : list value -> list value.

Local Abbreviation process := (process_fields llm json_loads list_of_set).
Local Abbreviation dedup_fields := (_deduplicate_fields llm json_loads list_of_set).

(** X7: with a negative batch size the deduplication stage makes no request
    and returns no field, so the pipeline goes on as if it had been given no
    field at all; with a batch size of zero and at least one field it raises
    [ValueError] before any request. *)
Theorem nonpositive_batch_size fields n :
  (forall size, size < 0 ->
     _deduplicate_fields llm json_loads list_of_set fields size n = (Ok [], n) /\
     process_fields llm json_loads list_of_set fields size n
     = process_fields llm json_loads list_of_set [] size n) /\
  (fields <> [] ->
     _deduplicate_fields llm json_loads list_of_set fields 0 n
     = (Raise ValueError, n) /\
     process_fields llm json_loads list_of_set fields 0 n
     = (Raise ValueError, n)).
Proof.
  split.
  - intros size Hs.
    assert (H : dedup_fields fields size n = (Ok [], n)).
    { unfold _deduplicate_fields. destruct fields; auto.
      unfold bind, lift, range_step.
      destruct (Z.eqb_spec size 0); [lia|].
      destruct (Z.ltb_spec size 0); [|lia]. reflexivity. }
    split; auto. unfold process_fields, bind. now rewrite H.
  - intros Hne. destruct fields as [|f fields]; [congruence|].
    split; reflexivity.
Qed.

(** X8: given no field, [process_fields] still makes one request, the one
    for the conditional logic; when it succeeds the schema holds parent
    questions only, and it is empty when the reply does not decode. *)
Theorem process_fields_without_fields size n out n' :
  process_fields llm json_loads list_of_set [] size n = (Ok out, n') ->
  n' = S n /\
  Forall (fun kv => is_parent_entry (snd kv) = true) out /\
  (forall response, llm n = Ok response ->
                    parse_response json_loads response = None -> out = []).
Proof.
  unfold process_fields, bind at 1. simpl.
  unfold bind at 1. simpl.
  unfold _generate_conditional_logic. unfold bind at 1, lift at 1. simpl.
  unfold bind at 1, messages_create.
  destruct (llm n) as [response|] eqn:Hllm; [|discriminate].
  intros H.
  pose proof H as H'.
  apply assemble_ok in H
    as (parent_qs & parents & relationships & Hq & Hp & Hr & Hst & ->).
  inversion Hst; subst. split; [simpl; lia|]. split.
  - eapply parents_flagged; eauto.
  - intros r [= <-] Hparse. rewrite Hparse in Hq. simpl in Hq.
    injection Hq as <-. simpl in Hp. congruence.
Qed.

(** X9: an exception of the request itself is not caught by the
    deduplication, grouping and conditional-logic stages: it leaves the
    stage, after the one request. *)
Theorem request_errors_propagate e n :
  llm n = Raise e ->
  (forall fields, Forall field_record fields ->
     _deduplicate_batch llm json_loads list_of_set fields n = (Raise e, S n)) /\
  (forall fields, fields <> [] -> Forall (has_key "field_name") fields ->
     _group_fields llm json_loads fields n = (Raise e, S n)) /\
  (forall fields, Forall (has_key "field_name") fields ->
     _generate_conditional_logic llm json_loads fields n = (Raise e, S n)).
Proof.
  intros Hllm. repeat split.
  - intros fields Hf. unfold _deduplicate_batch.
    destruct (dedup_summary_ok Hf) as [summary Hs].
    unfold bind, lift, messages_create. now rewrite Hs, Hllm.
  - intros fields Hne Hf. unfold _group_fields.
    destruct fields as [|f fields]; [congruence|].
    destruct (group_summary_ok Hf) as [summary Hs].
    unfold bind, lift, messages_create. now rewrite Hs, Hllm.
  - intros fields Hf. unfold _generate_conditional_logic.
    assert (Hs : exists summary, logic_summary fields = Ok summary).
    { apply rmap_total. intros [idx field] Hin. apply In_enumerate in Hin.
      rewrite Forall_forall in Hf. specialize (Hf _ Hin).
      unfold has_key, dict_getitem in *.
      destruct (dict_get "field_name" field); [|congruence]. simpl. eauto. }
    destruct Hs as [summary Hs].
    unfold bind, lift, messages_create. now rewrite Hs, Hllm.
Qed.

(** X10: the label stage falls back only when the request or the decoding
    fails.  A label reply that decodes to an object without a label, or
    without an explanation, is returned as it is, and the assembly then
    raises [KeyError] at that field. *)
Theorem label_reply_without_text conditional_logic field rest n response d :
  logic_ok conditional_logic ->
  named field ->
  llm n = Ok response ->
  parse_response json_loads response = Some (VDict d) ->
  dict_get "label" d = None \/ dict_get "explanation" d = None ->
  _generate_label_and_explanation llm json_loads
    (dict_get_default "field_name" VNone field) n = (Ok (VDict d), S n) /\
  assemble llm json_loads conditional_logic (field :: rest) n
  = (Raise KeyError, S n).
Proof.
  intros (cl & -> & (parent_qs & Hq & Hok) & (relationships & Hr)) [s Hs]
    Hllm Hparse Hd.
  assert (Hlabel : _generate_label_and_explanation llm json_loads (VStr s) n
                   = (Ok (VDict d), S n)).
  { unfold _generate_label_and_explanation, try_except, bind, messages_create,
      ret. now rewrite Hllm, Hparse. }
  split.
  - unfold dict_get_default. now rewrite Hs.
  - unfold assemble, bind, lift. simpl get_method. rewrite Hq, Hr. simpl iter.
    cbv iota beta.
    destruct (parents_total [] Hok) as [parents ->].
    unfold enumerate. cbn [List.length seq combine mfold].
    unfold bind at 1. unfold add_field, bind, lift. unfold dict_getitem at 1.
    rewrite Hs, Hlabel. simpl get_method. cbv iota beta.
    simpl getitem. unfold dict_getitem.
    destruct (dict_get "label" d); [|reflexivity].
    destruct Hd as [Hd|Hd]; [discriminate|]. now rewrite Hd.
Qed.

End EdgeFacts.

Lemma nonpositive_batch_size_witness :
  _deduplicate_fields prose_llm reject_json insertion_order [name_a] (-5) O
  = (Ok [], O) /\
  process_fields prose_llm reject_json insertion_order [name_a] (-5) O
  = (Ok [], 1%nat) /\
  process_fields prose_llm reject_json insertion_order [name_a] 0 O
  = (Raise ValueError, O).
Proof.
  destruct (nonpositive_batch_size prose_llm reject_json insertion_order
              [name_a] O) as [Hneg Hzero].
  destruct (Hneg (-5)) as [Hd Hp]; [reflexivity|].
  destruct Hzero as [_ Hz]; [discriminate|].
  split; [exact Hd|]. split; [rewrite Hp; reflexivity | exact Hz].
Defined.

Lemma process_fields_without_fields_witness :
  process_fields logic_llm logic_json insertion_order [] 50 O
  = (Ok [(VStr "Name",
          VDict [("label", VStr "Do you have a name?");
                 ("type", VStr "boolean");
                 ("required", VBool false);
                 ("options", VNone);
                 ("_metadata", VDict [("is_parent_question", VBool true);
                                      ("generated", VBool true)])])],
     1%nat) /\
  1%nat = 1%nat /\
  Forall (fun kv => is_parent_entry (snd kv) = true)
    [(VStr "Name",
      VDict [("label", VStr "Do you have a name?");
             ("type", VStr "boolean");
             ("required", VBool false);
             ("options", VNone);
             ("_metadata", VDict [("is_parent_question", VBool true);
                                  ("generated", VBool true)])])].
Proof.
  split; [reflexivity|].
  destruct (@process_fields_without_fields logic_llm logic_json insertion_order
              50 O _ _ eq_refl) as (H1 & H2 & _).
  split; [exact H1 | exact H2].
Defined.

Lemma request_errors_propagate_witness :
  _deduplicate_batch timeout_llm reject_json insertion_order [name_a] O
  = (Raise (RequestError "timeout"), 1%nat) /\
  _group_fields timeout_llm reject_json [name_a] O
  = (Raise (RequestError "timeout"), 1%nat) /\
  _generate_conditional_logic timeout_llm reject_json [name_a] O
  = (Raise (RequestError "timeout"), 1%nat).
Proof.
  destruct (@request_errors_propagate timeout_llm reject_json insertion_order
              (RequestError "timeout") O eq_refl) as (Hd & Hg & Hc).
  split; [|split].
  - apply Hd. repeat constructor; [discriminate | now exists "a.pdf"].
  - apply Hg; [discriminate | repeat constructor; discriminate].
  - apply Hc. repeat constructor; discriminate.
Defined.

Lemma label_reply_without_text_witness :
  _generate_label_and_explanation empty_object_llm empty_object_json
    (dict_get_default "field_name" VNone name_a) O = (Ok (VDict []), 1%nat) /\
  assemble empty_object_llm empty_object_json no_conditional_logic
    (name_a :: [full_name_b]) O
  = (Raise KeyError, 1%nat).
Proof.
  apply (@label_reply_without_text empty_object_llm empty_object_json
           no_conditional_logic name_a [full_name_b] O "{}" []).
  - exists [("parent_questions", VList []); ("field_relationships", VDict [])].
    split; [reflexivity|]. split.
    + exists []. split; [reflexivity | constructor].
    + exists []. reflexivity.
  - exists "Name". reflexivity.
  - reflexivity.
  - reflexivity.
  - left. reflexivity.
Defined.

(** ** The command line program, further *)

Lemma filter_subsequence {A} (keep : A -> bool) l :
  subsequence (filter keep l) l.
Proof.
  induction l as [|x l IH]; simpl; [constructor|].
  destruct (keep x); constructor; auto.
Qed.

(** [filter] keeps every subsequence whose elements all pass the test. *)
Lemma subsequence_filter {A} (keep : A -> bool) s l :
  subsequence s l -> Forall (fun x => keep x = true) s ->
  subsequence s (filter keep l).
Proof.
  induction 1 as [|x s l _ IH|x s l _ IH]; intros Hs; simpl.
  - constructor.
  - inversion Hs as [|? ? Hx Hs']; subst. rewrite Hx. constructor; auto.
  - destruct (keep x); [constructor|]; auto.
Qed.

Section MainOutcomes.
Variable path_exists : string -> bool.
Variable read_lines : string -> list string.
Variable path_suffix : string -> string.
Variable path_str : string -> string.
Variable writable : string -> bool.
Variable extract_acroforms : list string -> result (list dict).
Variable env_api_key : option string.

Local Abbreviation load :=
  (load_pdf_paths path_exists read_lines path_suffix path_str).

(** X11: the list [load_pdf_paths] returns is never empty, and it is made of
    the normal forms of listed paths, in the order listed: the paths kept
    are a subsequence of the listed ones, each exists and has the suffix
    [.pdf] up to letter case, and no such listed path is left out (every
    subsequence of the listed paths made of such paths is a subsequence of
    the paths kept).  Otherwise the program exits, with status 1, and then
    the list file is missing or no listed path is an existing PDF. *)
Theorem load_pdf_paths_valid args :
  let listed := listed_paths read_lines args in
  (forall pdf_paths,
     load_pdf_paths path_exists read_lines path_suffix path_str args
     = inl pdf_paths ->
     pdf_paths <> [] /\
     list_file_missing path_exists args = false /\
     exists kept,
       pdf_paths = map path_str kept /\
       subsequence kept listed /\
       Forall (existing_pdf path_exists path_suffix) kept /\
       forall others,
         subsequence others listed ->
         Forall (existing_pdf path_exists path_suffix) others ->
         subsequence others kept) /\
  (forall code,
     load_pdf_paths path_exists read_lines path_suffix path_str args
     = inr code ->
     code = 1 /\
     (list_file_missing path_exists args = true \/
      Forall (fun path => ~ existing_pdf path_exists path_suffix path)
             listed)).
Proof.
  cbv zeta.
  set (keep := fun path => path_exists path
                           && String.eqb (lower (path_suffix path)) ".pdf").
  assert (Hkeep : forall path,
            keep path = true <-> existing_pdf path_exists path_suffix path).
  { intros path. unfold keep, existing_pdf.
    now rewrite andb_true_iff, String.eqb_eq. }
  assert (Hcase : forall paths : list string,
    let valid := map path_str (filter keep paths) in
    let r := match valid with
             | [] => inr 1
             | _ => inl valid
             end in
    (forall pdf_paths, r = inl pdf_paths ->
       pdf_paths <> [] /\
       exists kept,
         pdf_paths = map path_str kept /\
         subsequence kept paths /\
         Forall (existing_pdf path_exists path_suffix) kept /\
         forall others,
           subsequence others paths ->
           Forall (existing_pdf path_exists path_suffix) others ->
           subsequence others kept) /\
    (forall code : Z, r = inr code ->
       code = 1 /\
       Forall (fun path => ~ existing_pdf path_exists path_suffix path) paths)).
  { intros paths. cbv zeta.
    destruct (map path_str (filter keep paths)) as [|q valid] eqn:E; split.
    - discriminate.
    - intros code [= <-]. split; auto.
      apply map_eq_nil in E. apply Forall_forall. intros path Hin Hv.
      apply Hkeep in Hv.
      assert (In path (filter keep paths)) by (apply filter_In; auto).
      rewrite E in H. destruct H.
    - intros pdf_paths [= <-]. split; [discriminate|].
      exists (filter keep paths). split; auto.
      split; [apply filter_subsequence|]. split.
      + apply Forall_forall. intros path Hin.
        apply filter_In in Hin as [_ Hin]. now apply Hkeep.
      + intros others Hsub Hall. apply subsequence_filter; auto.
        eapply Forall_impl; [|exact Hall]. intros path. apply Hkeep.
    - discriminate. }
  unfold load_pdf_paths, listed_paths, list_file_missing.
  fold keep.
  destruct (input_list args) as [file|].
  - destruct (String.eqb file "") eqn:Hfile; simpl negb; cbv iota.
    + destruct (Hcase (pdf_files args)) as [H1 H2]. cbv zeta in H1, H2.
      split.
      * intros pdf_paths H. destruct (H1 _ H) as [Hne Hk]. auto.
      * intros code H. destruct (H2 _ H) as [Hc Hn]. auto.
    + destruct (path_exists file) eqn:Hex; simpl negb; cbv iota.
      * destruct (Hcase (filter (fun line => negb (String.eqb line ""))
                                (map strip (read_lines file)))) as [H1 H2].
        cbv zeta in H1, H2. split.
        -- intros pdf_paths H. destruct (H1 _ H) as [Hne Hk]. auto.
        -- intros code H. destruct (H2 _ H) as [Hc Hn]. auto.
      * split; [discriminate|]. intros code [= <-]. auto.
  - destruct (Hcase (pdf_files args)) as [H1 H2]. cbv zeta in H1, H2.
    split.
    + intros pdf_paths H. destruct (H1 _ H) as [Hne Hk]. auto.
    + intros code H. destruct (H2 _ H) as [Hc Hn]. auto.
Qed.

Lemma load_pdf_paths_exit args code : load args = inr code -> code = 1.
Proof.
  unfold load_pdf_paths.
  destruct (input_list args) as [file|];
    [destruct (negb (String.eqb file ""));
     [destruct (negb (path_exists file))|]|];
    try (now intros [= <-]);
    (destruct (map path_str _); [now intros [= <-] | discriminate]).
Qed.

Section WithModel.
Variable llm : nat -> result string.
Variable json_loads : string -> option value.
Variable list_of_set : list value -> list value.

Local Abbreviation run :=
  (main llm json_loads list_of_set path_exists read_lines path_suffix path_str
        writable extract_acroforms env_api_key).

(** X12: once the command line is parsed, whatever the parsed arguments
    are, the run of [main] ends with exit status 0 or 1 and writes at most
    one file; a file is written only to the output path, only when that path
    can be opened for writing, and only by a run that ends with status 0. *)
Theorem main_outcome args :
  let outcome :=
    main llm json_loads list_of_set path_exists read_lines path_suffix path_str
         writable extract_acroforms env_api_key args in
  (exit_code outcome = 0 \/ exit_code outcome = 1) /\
  (written outcome = [] \/
   exists content,
     written outcome = [(output args, content)] /\
     exit_code outcome = 0 /\
     writable (output args) = true).
Proof.
  cbv zeta. unfold main.
  pose proof (@load_pdf_paths_exit args) as Hcode.
  destruct (load args) as [pdf_paths|code].
  - destruct (extract_acroforms pdf_paths) as [[|f fields]|]; simpl; auto.
    destruct (extract_only args).
    + destruct (writable (output args)) eqn:Hw; simpl; auto.
      split; auto. right. eexists. repeat split.
    + destruct (rbind _ _); simpl; auto.
      destruct (writable (output args)) eqn:Hw; simpl; auto.
      split; auto. right. eexists. repeat split.
  - rewrite (Hcode code eq_refl). simpl. auto.
Qed.

End WithModel.

(** X13: in extract-only mode the language model plays no part: the outcome
    of the run is the same whatever the model answers, however its answers
    decode, and with or without an API key. *)
Theorem extract_only_ignores_the_model llm1 llm2 json1 json2 order1 order2
    key1 key2 args :
  extract_only args = true ->
  main llm1 json1 order1 path_exists read_lines path_suffix path_str writable
       extract_acroforms key1 args
  = main llm2 json2 order2 path_exists read_lines path_suffix path_str writable
         extract_acroforms key2 args.
Proof.
  intros He. unfold main.
  destruct (load args); auto.
  destruct (extract_acroforms l) as [[|f fields]|]; auto.
  now rewrite He.
Qed.

End MainOutcomes.

Lemma load_pdf_paths_valid_witness :
  load_pdf_paths list_and_pdfs_exist four_lines pdf_suffix same_path
    list_file_args
  = inl ["b.pdf"; "a.pdf"] /\
  listed_paths four_lines list_file_args = ["b.pdf"; "ghost.pdf"; "a.pdf"] /\
  (["b.pdf"; "a.pdf"] <> [] /\
   list_file_missing list_and_pdfs_exist list_file_args = false /\
   exists kept,
     ["b.pdf"; "a.pdf"] = map same_path kept /\
     subsequence kept (listed_paths four_lines list_file_args) /\
     Forall (existing_pdf list_and_pdfs_exist pdf_suffix) kept /\
     forall others,
       subsequence others (listed_paths four_lines list_file_args) ->
       Forall (existing_pdf list_and_pdfs_exist pdf_suffix) others ->
       subsequence others kept) /\
  load_pdf_paths a_and_b_exist no_lines pdf_suffix same_path missing_list_args
  = inr 1 /\
  list_file_missing a_and_b_exist missing_list_args = true.
Proof.
  split; [reflexivity|]. split; [reflexivity|].
  split; [|split; reflexivity].
  apply (proj1 (load_pdf_paths_valid list_and_pdfs_exist four_lines pdf_suffix
                  same_path list_file_args)).
  reflexivity.
Defined.

Lemma extract_only_ignores_the_model_witness :
  extract_only three_paths_args = true /\
  main prose_llm reject_json insertion_order a_and_b_exist no_lines pdf_suffix
       same_path every_path
       (extract_acroforms str_of_text int_of_number a_and_b_exist same_path
          two_documents)
       None three_paths_args
  = main timeout_llm empty_object_json (@rev value) a_and_b_exist no_lines
         pdf_suffix same_path every_path
         (extract_acroforms str_of_text int_of_number a_and_b_exist same_path
            two_documents)
         (Some "key") three_paths_args /\
  exit_code
    (main prose_llm reject_json insertion_order a_and_b_exist no_lines
          pdf_suffix same_path every_path
          (extract_acroforms str_of_text int_of_number a_and_b_exist same_path
             two_documents)
          None three_paths_args) = 0.
Proof.
  split; [reflexivity|]. split; [|reflexivity].
  apply (@extract_only_ignores_the_model a_and_b_exist no_lines pdf_suffix
           same_path every_path
           (extract_acroforms str_of_text int_of_number a_and_b_exist same_path
              two_documents)
           prose_llm timeout_llm reject_json empty_object_json insertion_order
           (@rev value) None (Some "key") three_paths_args).
  reflexivity.
Defined.

(** ** The response parser *)

Lemma split_line s : no_newline s = true -> split_lines s = [s].
Proof.
  unfold no_newline. induction s as [|c s IH]; simpl; auto.
  intros H. apply andb_true_iff in H as [Hc Hs].
  apply negb_true_iff in Hc. rewrite Hc, IH; auto.
Qed.

Lemma split_line_then s t :
  no_newline s = true ->
  split_lines (String.append s (String newline t)) = s :: split_lines t.
Proof.
  unfold no_newline. induction s as [|c s IH]; simpl.
  - intros _. unfold newline. reflexivity.
  - intros H. apply andb_true_iff in H as [Hc Hs].
    apply negb_true_iff in Hc. rewrite Hc, IH; auto.
Qed.

(** Splitting what was joined gives the lines back. *)
Lemma split_join_lines ls :
  ls <> [] -> Forall (fun l => no_newline l = true) ls ->
  split_lines (join_lines ls) = ls.
Proof.
  unfold join_lines. induction ls as [|l ls IH]; [congruence|].
  intros _ H. inversion H as [|? ? Hl Hls]; subst.
  destruct ls as [|l2 ls].
  - simpl. now apply split_line.
  - change (String.concat (String newline "") (l :: l2 :: ls))
      with (String.append l
              (String newline (String.concat (String newline "") (l2 :: ls)))).
    rewrite split_line_then by auto. f_equal. apply IH; auto. discriminate.
Qed.

(** X14: a reply that, white space around it apart, is a fence line (three
    backquotes and a tag), one or more lines, and a closing fence, is handed
    to the decoder as the lines in between, joined again; only when these
    begin with the letters json are four characters dropped and the rest
    stripped. *)
Theorem clean_response_unwraps_fence reply tag body :
  body <> [] ->
  Forall (fun l => no_newline l = true) (tag :: body) ->
  strip reply = join_lines (String.append "```" tag :: body ++ ["```"]) ->
  clean_response reply
  = if prefix "json" (join_lines body)
    then strip (drop 4 (join_lines body))
    else join_lines body.
Proof.
  intros Hne Hlines Hreply. inversion Hlines as [|? ? Htag Hbody]; subst.
  unfold clean_response. rewrite Hreply.
  assert (Hfence : prefix "```"
                     (join_lines (String.append "```" tag :: body ++ ["```"]))
                   = true).
  { destruct body as [|l body]; [congruence|]. unfold join_lines.
    cbn [app String.concat String.append].
    repeat (cbn [prefix]; destruct (Ascii.ascii_dec _ _); [|congruence]).
    cbn [prefix]. now destruct (String.append tag _). }
  rewrite Hfence, split_join_lines.
  - cbn [List.length tl]. rewrite length_app. simpl List.length.
    replace (2 <? S (List.length body + 1))%nat with true.
    + now rewrite removelast_last.
    + symmetry. apply Nat.ltb_lt. destruct body; [congruence | simpl; lia].
  - discriminate.
  - constructor; [exact Htag|]. apply Forall_app. split; auto.
Qed.

Lemma clean_response_unwraps_fence_witness :
  clean_response padded_fenced_reply
  = String.concat (String newline "") ["[1,"; " 2]"] /\
  clean_response json_word_reply = "[1]".
Proof.
  split.
  - apply (@clean_response_unwraps_fence padded_fenced_reply "json"
             ["[1,"; " 2]"]).
    + discriminate.
    + repeat constructor.
    + reflexivity.
  - apply (@clean_response_unwraps_fence json_word_reply "" ["json [1]"]).
    + discriminate.
    + repeat constructor.
    + reflexivity.
Defined.

(** ** Relationships and sources in the schema *)

Lemma field_metadata_source name idx field r :
  dict_get "source_pdf" (field_metadata name idx field r)
  = Some (dict_get_default "sources"
            (VList [dict_get_default "source_pdf" VNone field]) field).
Proof.
  unfold field_metadata. destruct (parent_of r) as [parent_id parent_condition].
  destruct (truthy parent_condition).
  - now rewrite dict_get_set_other by discriminate.
  - reflexivity.
Qed.

Section RelationshipFacts.
Variable llm : nat -> result string.
Variable json_loads : string -> option value.


End RelationshipFacts.


Example ghost_parent_is_recorded :
  exists out e1 e2,
    fst (assemble prose_llm reject_json ghost_logic [name_a; full_name_b] O)
    = Ok out /\
    assoc_get key_eqb (VStr "ghost") out = None /\
    assoc_get key_eqb (VStr "Name") out = Some e1 /\
    metadata_of e1
    = Some [("field_name", VStr "Name");
            ("source_pdf", VList [VStr "a.pdf"]);
            ("order_index", VInt 0);
            ("parent", VStr "ghost");
            ("position", VNone);
            ("parent_condition",
             VDict [("operator", VStr "equals"); ("value", VBool true)])] /\
    assoc_get key_eqb (VStr "Full Name") out = Some e2 /\
    metadata_of e2
    = Some [("field_name", VStr "Full Name");
            ("source_pdf", VList [VStr "b.pdf"]);
            ("order_index", VInt 1);
            ("parent", VStr "ghost");
            ("position", VNone)].
Proof. do 3 eexists. repeat split; reflexivity. Qed.

Lemma dict_get_absent k (d : dict) : ~ In k (keys d) -> dict_get k d = None.
Proof.
  unfold dict_get, keys. induction d as [|[k' v] d IH]; simpl; auto.
  intros H. destruct (String.eqb_spec k' k) as [->|Hne]; [tauto|].
  apply IH. tauto.
Qed.

(** X16: what the schema shows as the sources of a field.  For a merged
    record, passed through the grouping stage, it is the list stored by the
    merge, the distinct source documents of the merged fields, and the order
    index is the group; for a record as the extractor emits it, never
    merged, it is the one-element list of its source document. *)
Theorem sources_reach_the_schema name idx g r :
  (forall fields t m,
      is_merge fields t m ->
      exists sources,
        dict_get "source_pdf" (field_metadata name idx (tagged g m) r)
        = Some (VList sources) /\
        NoDup sources /\
        (forall s, In s sources <->
                   exists i f, In i (snd t) /\ record_at fields i = Some f /\
                               dict_get "source_pdf" f = Some s) /\
        dict_get "order_index" (field_metadata name idx (tagged g m) r)
        = Some (VInt (Z.of_nat g))) /\
  (forall field_name source f,
      extracted_record field_name source f ->
      dict_get "source_pdf" (field_metadata name idx (tagged g f) r)
      = Some (VList [VStr source]) /\
      dict_get "order_index" (field_metadata name idx (tagged g f) r)
      = Some (VInt (Z.of_nat g))).
Proof.
  assert (Horder : forall f,
    dict_get "order_index" (field_metadata name idx (tagged g f) r)
    = Some (VInt (Z.of_nat g))).
  { intros f.
    destruct (field_metadata_facts name idx (tagged g f) r) as (_ & -> & _).
    unfold dict_get_default, tagged. now rewrite dict_get_set_same. }
  split.
  - intros fields t m (i0 & others & base & _ & _ & _ & _ & sources & Hs & Hnd & Hin).
    exists sources. rewrite field_metadata_source. unfold dict_get_default, tagged.
    rewrite dict_get_set_other by discriminate. rewrite Hs.
    repeat split; auto; apply Hin || apply Horder.
  - intros field_name source f (Hkeys & _ & Hsource & _). split; auto.
    rewrite field_metadata_source. unfold dict_get_default, tagged.
    rewrite !dict_get_set_other by discriminate.
    rewrite Hsource, dict_get_absent; auto.
    rewrite Hkeys. unfold record_keys. simpl. intuition discriminate.
Qed.

Lemma sources_reach_the_schema_witness :
  is_merge [name_a; full_name_b] (VStr "Full Name", [0; 1]) merged_full_name /\
  exists sources,
    dict_get "source_pdf"
      (field_metadata (VStr "Full Name") 0 (tagged 3 merged_full_name) VNone)
    = Some (VList sources) /\
    NoDup sources /\
    (forall s, In s sources <->
               exists i f, In i (snd (VStr "Full Name", [0; 1])) /\
                           record_at [name_a; full_name_b] i = Some f /\
                           dict_get "source_pdf" f = Some s) /\
    dict_get "order_index"
      (field_metadata (VStr "Full Name") 0 (tagged 3 merged_full_name) VNone)
    = Some (VInt (Z.of_nat 3)).
Proof.
  assert (Hm : is_merge [name_a; full_name_b] (VStr "Full Name", [0; 1])
                 merged_full_name).
  { exists 0, [1], name_a. repeat split.
    - intros k H1 H2.
      change merged_full_name
        with (dict_set "sources" (VList [VStr "a.pdf"; VStr "b.pdf"])
                (dict_set "field_name" (VStr "Full Name") name_a)).
      now rewrite !dict_get_set_other by congruence.
    - exists [VStr "a.pdf"; VStr "b.pdf"]. split; [reflexivity|]. split.
      + repeat constructor; simpl; intuition discriminate.
      + intros s. split.
        * intros [<-|[<-|[]]]; [exists 0, name_a | exists 1, full_name_b];
            simpl; auto.
        * intros (i & f & [<-|[<-|[]]] & Hf & Hs);
            injection Hf as <-; injection Hs as <-; simpl; auto. }
  split; [exact Hm|].
  exact (proj1 (sources_reach_the_schema (VStr "Full Name") 0 3 VNone)
           [name_a; full_name_b] (VStr "Full Name", [0; 1]) merged_full_name Hm).
Defined.

(** ** The order of the grouped fields *)

Lemma sorted_repeat_then k c ids :
  StronglySorted le ids -> Forall (fun g => (k <= g)%nat) ids ->
  StronglySorted le (repeat k c ++ ids).
Proof.
  intros Hs Hk. induction c as [|c IH]; simpl; auto.
  constructor; auto. apply Forall_app. split; auto.
  apply Forall_forall. intros g Hg. apply repeat_spec in Hg. lia.
Qed.

Lemma tag_fields_ids fields group_id idxs : forall acc out,
  rfold (tag_field fields group_id) idxs acc = Ok out ->
  exists c new,
    out = acc ++ new /\ group_ids new = ids_as_entries (repeat group_id c).
Proof.
  induction idxs as [|idx idxs IH]; intros acc out; simpl.
  - intros [= <-]. exists O, []. now rewrite app_nil_r.
  - unfold tag_field at 1.
    destruct (as_int idx) as [i|]; [|discriminate].
    destruct (i <? Z.of_nat (List.length fields)).
    + destruct (list_index fields i) as [f|]; [|discriminate]. simpl.
      intros H. apply IH in H as (c & new & -> & Hnew).
      exists (S c), (dict_set "_group_id" (VInt (Z.of_nat group_id)) f :: new).
      rewrite <- app_assoc. split; auto.
      unfold group_ids in *. simpl. rewrite dict_get_set_same. now f_equal.
    + simpl. apply IH.
Qed.

Lemma tag_groups_ids fields gs : forall k acc out,
  rfold (tag_group fields) (combine (seq k (List.length gs)) gs) acc = Ok out ->
  exists ids new,
    out = acc ++ new /\ group_ids new = ids_as_entries ids /\
    StronglySorted le ids /\
    Forall (fun g => (k <= g < k + List.length gs)%nat) ids.
Proof.
  induction gs as [|group gs IH]; intros k acc out; simpl.
  - intros [= <-]. exists [], []. rewrite app_nil_r.
    repeat split; constructor.
  - destruct (getitem group (VStr "field_indices")) as [indices|]; [|discriminate].
    simpl. destruct (iter indices) as [idxs|]; [|discriminate]. simpl.
    destruct (rfold (tag_field fields k) idxs acc) as [acc1|] eqn:E;
      [|discriminate].
    apply tag_fields_ids in E as (c & new1 & -> & Hnew1). simpl.
    intros H. apply IH in H as (ids & new & -> & Hnew & Hsorted & Hrange).
    exists (repeat k c ++ ids), (new1 ++ new). rewrite <- app_assoc.
    repeat split.
    + unfold group_ids, ids_as_entries in *.
      now rewrite !map_app, Hnew1, Hnew.
    + apply sorted_repeat_then; auto.
      eapply Forall_impl; [|exact Hrange]. simpl. intros; lia.
    + apply Forall_app. split.
      * apply Forall_forall. intros g Hg. apply repeat_spec in Hg. lia.
      * eapply Forall_impl; [|exact Hrange]. simpl. intros; lia.
Qed.

Section GroupOrder.
Variable llm : nat -> result string.
Variable json_loads : string -> option value.

(** X17: whatever the grouping reply, when the stage returns, every record
    carries a [_group_id] that is a natural number, and the records are
    ordered by it: the fields come out group after group. *)
Theorem grouped_fields_ordered_by_group fields n out n' :
  _group_fields llm json_loads fields n = (Ok out, n') ->
  exists ids,
    group_ids out = ids_as_entries ids /\ StronglySorted le ids.
Proof.
  unfold _group_fields. destruct fields as [|f fields].
  - unfold ret. intros [= <- _]. exists []. split; constructor.
  - unfold bind, lift, messages_create.
    destruct (group_summary (f :: fields)); [|discriminate].
    destruct (llm n) as [response|]; [|discriminate].
    unfold tag_groups.
    destruct (iter _) as [gs|]; [|discriminate]. simpl rbind.
    intros [= H _]. unfold enumerate in H.
    apply tag_groups_ids in H as (ids & new & -> & Hnew & Hsorted & _).
    exists ids. auto.
Qed.

End GroupOrder.

Lemma grouped_fields_ordered_by_group_witness :
  _group_fields two_groups_llm two_groups_json [name_a; full_name_b] O
  = (Ok [tagged 0 full_name_b; tagged 1 name_a; tagged 1 full_name_b], 1%nat) /\
  exists ids,
    group_ids [tagged 0 full_name_b; tagged 1 name_a; tagged 1 full_name_b]
    = ids_as_entries ids /\ StronglySorted le ids.
Proof.
  split; [reflexivity|].
  apply (@grouped_fields_ordered_by_group two_groups_llm two_groups_json
           [name_a; full_name_b] O _ 1%nat).
  reflexivity.
Defined.

(** ** Replies of the wrong shape *)

Section ShapeFacts.
Variable llm : nat -> result string.
Variable json_loads : string -> option value.
Variable list_of_set : list value -> list value.

(** X18: for a string name the label stage never raises and makes exactly
    one request; and a reply that decodes is returned as decoded, whatever
    its shape. *)
Theorem generate_label_always_returns name n :
  (exists v, _generate_label_and_explanation llm json_loads (VStr name) n
             = (Ok v, S n)) /\
  (forall response v,
      llm n = Ok response ->
      parse_response json_loads response = Some v ->
      _generate_label_and_explanation llm json_loads (VStr name) n
      = (Ok v, S n)).
Proof.
  unfold _generate_label_and_explanation, try_except, bind, messages_create,
    lift, ret.
  split.
  - destruct (llm n) as [response|]; simpl; eauto.
    destruct (parse_response json_loads response); simpl; eauto.
  - intros response v -> ->. reflexivity.
Qed.

(** X19: a deduplication reply that decodes to something else than a list of
    groups is not caught by the fallback.  Decoded to [null], a boolean or a
    number, or to a non-empty object or string, it makes the stage raise
    [TypeError]; decoded to an empty list, object or string, it makes the
    stage return no field at all. *)
Theorem deduplicate_batch_wrong_shape fields n response groups :
  Forall field_record fields ->
  llm n = Ok response ->
  parse_response json_loads response = Some groups ->
  (groups = VNone \/ (exists b, groups = VBool b) \/ (exists z, groups = VInt z) ->
   _deduplicate_batch llm json_loads list_of_set fields n
   = (Raise TypeError, S n)) /\
  (forall k v d, groups = VDict ((k, v) :: d) ->
     _deduplicate_batch llm json_loads list_of_set fields n
     = (Raise TypeError, S n)) /\
  (forall c s, groups = VStr (String c s) ->
     _deduplicate_batch llm json_loads list_of_set fields n
     = (Raise TypeError, S n)) /\
  (groups = VList [] \/ groups = VDict [] \/ groups = VStr "" ->
   _deduplicate_batch llm json_loads list_of_set fields n = (Ok [], S n)).
Proof.
  intros Hf Hllm Hparse.
  assert (Hrun : _deduplicate_batch llm json_loads list_of_set fields n
                 = (merge_groups list_of_set fields groups, S n)).
  { unfold _deduplicate_batch. destruct (dedup_summary_ok Hf) as [summary Hs].
    unfold bind, lift, messages_create. now rewrite Hs, Hllm, Hparse. }
  rewrite Hrun. repeat split.
  - intros [->|[[b ->]|[z ->]]]; reflexivity.
  - intros k v d ->. reflexivity.
  - intros c s ->. reflexivity.
  - intros [->|[->| ->]]; reflexivity.
Qed.

End ShapeFacts.

Lemma generate_label_always_returns_witness :
  (exists v, _generate_label_and_explanation empty_object_llm empty_object_json
               (VStr "DOB") O = (Ok v, 1%nat)) /\
  _generate_label_and_explanation empty_object_llm empty_object_json
    (VStr "DOB") O = (Ok (VDict []), 1%nat).
Proof.
  destruct (generate_label_always_returns empty_object_llm empty_object_json
              "DOB" O) as [H1 H2].
  split; [exact H1|]. apply (H2 "{}"); reflexivity.
Defined.

Lemma deduplicate_batch_wrong_shape_witness :
  _deduplicate_batch empty_object_llm empty_object_json insertion_order
    [name_a; full_name_b] O = (Ok [], 1%nat).
Proof.
  assert (Hf : Forall field_record [name_a; full_name_b]).
  { repeat constructor; try discriminate;
      [now exists "a.pdf" | now exists "b.pdf"]. }
  destruct (@deduplicate_batch_wrong_shape empty_object_llm empty_object_json
              insertion_order [name_a; full_name_b] O "{}" (VDict [])
              Hf eq_refl eq_refl) as (_ & _ & _ & H).
  apply H. auto.
Defined.

(** ** A model that never answers in JSON *)

Lemma stored_fresh_keys relationships k fields output out :
  stored relationships k fields output out ->
  forall names,
    Forall2 (fun f s => dict_get "field_name" f = Some (VStr s)) fields names ->
    NoDup names ->
    (forall s, In s names ->
               existsb (fun k' => key_eqb k' (VStr s)) (keys output) = false) ->
    keys out = keys output ++ map VStr names.
Proof.
  induction 1 as [|k field fields output s r e out Hs Hr He Hst IH];
    intros names H2 Hnd Hfresh; inversion H2 as [|? s' ? names' Hs' H2']; subst.
  - simpl. now rewrite app_nil_r.
  - assert (s' = s) by congruence. subst s'.
    inversion Hnd as [|? ? Hnotin Hnd']; subst.
    rewrite (IH names' H2' Hnd').
    + rewrite keys_assoc_set, Hfresh by (simpl; auto).
      now rewrite <- app_assoc.
    + intros t Ht. rewrite keys_assoc_set, Hfresh by (simpl; auto).
      rewrite existsb_app, Hfresh by (simpl; auto). simpl.
      rewrite orb_false_r. apply String.eqb_neq. intros ->. contradiction.
Qed.

Section NeverJson.
Variable llm : nat -> result string.
Variable json_loads : string -> option value.
Variable list_of_set : list value -> list value.
Hypothesis never_json :
  forall i, exists response,
    llm i = Ok response /\ parse_response json_loads response = None.

Lemma group_fields_singletons_run fields n :
  fields <> [] -> Forall named fields ->
  _group_fields llm json_loads fields n
  = (Ok (map (fun p => tagged (fst p) (snd p)) (enumerate fields)), S n).
Proof.
  intros Hne Hn. unfold _group_fields. destruct fields as [|f fields']; [congruence|].
  destruct (@group_summary_ok (f :: fields')) as [summary Hs].
  { eapply Forall_impl; [|exact Hn]. intros g [s Hg]. unfold has_key. congruence. }
  destruct (never_json n) as (response & Hllm & Hparse).
  unfold bind, lift, messages_create. rewrite Hs, Hllm, Hparse.
  now rewrite tag_groups_singletons.
Qed.

Lemma tagged_name g f : dict_get "field_name" (tagged g f) = dict_get "field_name" f.
Proof. unfold tagged. now rewrite dict_get_set_other by discriminate. Qed.

(** X20: with a model that never answers in JSON the whole pipeline still
    returns a schema.  For field records with pairwise different string
    names and a positive batch size, [process_fields] returns one entry per
    field, keyed by the field names in input order, each with its position
    as order index, no parent and no condition, after one request per batch,
    two for grouping and conditional logic, and one per field; with no field
    at all the only request is the one for conditional logic. *)
Theorem process_fields_never_json fields size n :
  0 < size ->
  Forall field_record fields ->
  Forall named fields ->
  NoDup (map (dict_get "field_name") fields) ->
  exists out,
    process_fields llm json_loads list_of_set fields size n
    = (Ok out,
       match fields with
       | [] => S n
       | _ => (n + (List.length fields + Z.to_nat size - 1) / Z.to_nat size + 2
               + List.length fields)%nat
       end) /\
    keys out = map (dict_get_default "field_name" VNone) fields /\
    forall j field,
      nth_error fields j = Some field ->
      exists s e metadata,
        dict_get "field_name" field = Some (VStr s) /\
        assoc_get key_eqb (VStr s) out = Some (VDict e) /\
        metadata_of (VDict e) = Some metadata /\
        dict_get "order_index" metadata = Some (VInt (Z.of_nat j)) /\
        dict_get "parent" metadata = Some VNone /\
        dict_get "parent_condition" metadata = None.
Proof.
  intros Hs Hf Hn Hnd.
  destruct fields as [|f0 fields0] eqn:Hfields.
  { destruct (never_json n) as (response & Hllm & Hparse).
    exists []. split; [|split; [reflexivity|intros [|j] field; discriminate]].
    unfold process_fields, _deduplicate_fields, _group_fields,
      _generate_conditional_logic, bind, lift, ret, messages_create. simpl.
    now rewrite Hllm, Hparse. }
  rewrite <- Hfields in *.
  assert (Hne : fields <> []) by (rewrite Hfields; discriminate).
  clear Hfields f0 fields0.
  set (c := ((List.length fields + Z.to_nat size - 1) / Z.to_nat size)%nat).
  set (grouped := map (fun p => tagged (fst p) (snd p)) (enumerate fields)).
  assert (Hlen : List.length grouped = List.length fields).
  { unfold grouped, enumerate.
    rewrite length_map, length_combine, length_seq. lia. }
  assert (Hnth : forall j f, nth_error fields j = Some f ->
                             nth_error grouped j = Some (tagged j f)).
  { intros j f Hj. unfold grouped.
    now rewrite nth_error_map, (nth_error_enumerate _ _ Hj). }
  assert (Hnth' : forall j g, nth_error grouped j = Some g ->
                    exists f, nth_error fields j = Some f /\ g = tagged j f).
  { intros j g Hj.
    destruct (nth_error fields j) as [f|] eqn:E.
    - exists f. split; auto. rewrite (Hnth _ _ E) in Hj. congruence.
    - apply nth_error_None in E.
      assert (nth_error grouped j <> None) by congruence.
      apply nth_error_Some in H. lia. }
  assert (Hgn : Forall named grouped).
  { apply Forall_forall. intros g Hg. apply In_nth_error in Hg as [j Hj].
    apply Hnth' in Hj as (f & Hj & ->). apply nth_error_In in Hj.
    rewrite Forall_forall in Hn. destruct (Hn f Hj) as [s Hs'].
    exists s. now rewrite tagged_name. }
  (* the three stages *)
  assert (Hd : _deduplicate_fields llm json_loads list_of_set fields size n
               = (Ok fields, (n + c)%nat)).
  { rewrite dedup_fields_loop by auto.
    rewrite (@turns_all_fallback llm json_loads list_of_set); auto.
    unfold batch_starts, slice. rewrite length_map, length_seq, map_map.
    rewrite chunks_concat; auto. apply batch_count_covers. lia. }
  assert (Hg : _group_fields llm json_loads fields (n + c)%nat
               = (Ok grouped, S (n + c)))
    by now apply group_fields_singletons_run.
  destruct (@assemble_total llm json_loads no_conditional_logic grouped
              (S (S (n + c)%nat))) as [out Hout]; auto.
  { exists [("parent_questions", VList []); ("field_relationships", VDict [])].
    split; auto. split; [exists []; split; auto | exists []; reflexivity]. }
  { intros i _. unfold label_reply_usable.
    destruct (never_json i) as (response & -> & ->). exact I. }
  assert (Hc : _generate_conditional_logic llm json_loads grouped
                 (S (n + c)%nat)
               = (Ok out, (n + c + 2 + List.length fields)%nat)).
  { unfold _generate_conditional_logic.
    assert (Hsum : exists summary, logic_summary grouped = Ok summary).
    { apply rmap_total. intros [idx g] Hin. apply In_enumerate in Hin.
      rewrite Forall_forall in Hgn. destruct (Hgn _ Hin) as [s Hs'].
      unfold dict_getitem. rewrite Hs'. simpl. eauto. }
    destruct Hsum as [summary Hsum].
    destruct (never_json (S (n + c)%nat)) as (response & Hllm & Hparse).
    unfold bind at 1, lift at 1. rewrite Hsum.
    unfold bind at 1, messages_create. rewrite Hllm, Hparse, Hout.
    f_equal. lia. }
  exists out. split.
  { unfold process_fields, bind. now rewrite Hd, Hg, Hc. }
  apply assemble_ok in Hout
    as (parent_qs & parents & relationships & Hq & Hp & Hr & Hst & _).
  simpl in Hq, Hr. injection Hq as <-. injection Hr as <-.
  simpl in Hp. injection Hp as <-.
  (* the names as strings *)
  assert (Hnames : exists names,
    Forall2 (fun f s => dict_get "field_name" f = Some (VStr s)) fields names).
  { clear - Hn. induction Hn as [|f fs [s Hs'] _ [names IH]].
    - exists []. constructor.
    - exists (s :: names). constructor; auto. }
  destruct Hnames as [names Hnames].
  assert (Hmap : map (dict_get "field_name") fields
                 = map (fun s => Some (VStr s)) names).
  { clear - Hnames. induction Hnames; simpl; auto. now f_equal. }
  split.
  - rewrite (stored_fresh_keys Hst (names := names)).
    + simpl. clear - Hnames. induction Hnames as [|f s fs ss Hfs _ IH]; simpl; auto.
      f_equal; auto. unfold dict_get_default. now rewrite Hfs.
    + unfold grouped, enumerate. generalize O.
      clear - Hnames. induction Hnames as [|f s fs ss Hfs _ IH]; intros k; simpl.
      * constructor.
      * constructor; auto. simpl. now rewrite tagged_name.
    + rewrite Hmap in Hnd. apply NoDup_map_inv in Hnd. exact Hnd.
    + reflexivity.
  - intros j field Hj.
    rewrite Forall_forall in Hn. destruct (Hn field (nth_error_In _ _ Hj)) as [s Hs'].
    assert (Hlast : last_named grouped j s).
    { intros i g Hi Hgi Hname. apply Hnth' in Hgi as (f' & Hf' & ->).
      rewrite tagged_name in Hname.
      assert (Heq : nth_error (map (dict_get "field_name") fields) i
                    = nth_error (map (dict_get "field_name") fields) j).
      { rewrite !nth_error_map, Hf', Hj. simpl. congruence. }
      apply (proj1 (NoDup_nth_error _) Hnd) in Heq; [lia|].
      rewrite length_map. apply nth_error_Some. congruence. }
    destruct (stored_last Hst (Hnth _ _ Hj)
                (eq_trans (tagged_name j field) Hs') Hlast)
      as (r & e & Hget & Hentry & He).
    simpl in Hget, He. injection Hget as <-.
    destruct (field_metadata_facts (VStr s) j (tagged j field) VNone)
      as (_ & Ho & Hparent & _ & Hcond).
    exists s, e, (field_metadata (VStr s) j (tagged j field) VNone).
    repeat split; auto.
    + unfold metadata_of. now rewrite He.
    + rewrite Ho. unfold dict_get_default, tagged. now rewrite dict_get_set_same.
Qed.

End NeverJson.

Lemma process_fields_never_json_witness :
  (exists out,
     process_fields prose_llm reject_json insertion_order
       [name_a; full_name_b] 50 O
     = (Ok out, 5%nat) /\
     keys out = map (dict_get_default "field_name" VNone) [name_a; full_name_b] /\
     forall j field,
       nth_error [name_a; full_name_b] j = Some field ->
       exists s e metadata,
         dict_get "field_name" field = Some (VStr s) /\
         assoc_get key_eqb (VStr s) out = Some (VDict e) /\
         metadata_of (VDict e) = Some metadata /\
         dict_get "order_index" metadata = Some (VInt (Z.of_nat j)) /\
         dict_get "parent" metadata = Some VNone /\
         dict_get "parent_condition" metadata = None) /\
  (exists out,
     process_fields prose_llm reject_json insertion_order [] 50 O
     = (Ok out, 1%nat) /\
     keys out = []).
Proof.
  pose (never := fun i : nat =>
          ex_intro (fun response =>
                      prose_llm i = Ok response /\
                      parse_response reject_json response = None)
            "Sorry, I cannot produce that." (conj eq_refl eq_refl)).
  split.
  - apply (@process_fields_never_json prose_llm reject_json insertion_order
             never [name_a; full_name_b] 50 O).
    + reflexivity.
    + repeat constructor; try discriminate;
        [now exists "a.pdf" | now exists "b.pdf"].
    + repeat constructor; [now exists "Name" | now exists "Full Name"].
    + repeat constructor; simpl; intuition discriminate.
  - destruct (@process_fields_never_json prose_llm reject_json insertion_order
                never [] 50 O eq_refl (Forall_nil _) (Forall_nil _)
                (NoDup_nil _)) as (out & Hrun & Hkeys & _).
    exists out. split; [exact Hrun | exact Hkeys].
Defined.
